(** * A shallow embedding of the pysh2 rule-application core

    The Python package [core] of pysh2 is a backtracking rule engine
    ([core/processor.py]), specialised to streams ([core/stream_processor.py])
    and to a character lexer ([core/lexer.py]); [core/loader.py] compiles two
    small DSLs with it.  This file embeds those modules:

    - Python exceptions become the monad [exc]: [Raise] is a raised
      [processor.Error], [HostRaise] any other Python exception (here only
      [AttributeError] arises), and [OutOfFuel] stands for a computation
      that has not finished within the fuel given (Python would keep
      recursing or looping).
    - every [Rule] subclass is a constructor of [rule]; the abstract
      [HeadRule] is parameterised by its [pred] and [result] methods.
    - a [State] is the processor (the rule registry) and the stream value;
      the stream remembers whether it is a plain [stream_processor.Stream]
      or a [lexer.StateValue], whose [tail] and [__repr__] differ. *)

From Stdlib Require Import String Ascii List ZArith Bool Lia.
Import ListNotations.
Set Warnings "-register-all,-notation-for-abbreviation".

(** Python exceptions that are not [processor.Error]. *)
Inductive host_exc : Type :=
| AttributeError (attr : string).

(** The result of running Python code that may raise errors of type [E]. *)
Inductive exc (E T : Type) : Type :=
| Ok (x : T)
| Raise (e : E)
| HostRaise (h : host_exc)
| OutOfFuel.

Arguments Ok {E T} x.
Arguments Raise {E T} e.
Arguments HostRaise {E T} h.
Arguments OutOfFuel {E T}.

Definition bind {E T U} (m : exc E T) (f : T -> exc E U) : exc E U :=
  match m with
  | Ok x => f x
  | Raise e => Raise e
  | HostRaise h => HostRaise h
  | OutOfFuel => OutOfFuel
  end.

Notation "'let*' x := m 'in' f" := (bind m (fun x => f))
  (at level 200, x name, m at level 100, f at level 200).

(** [try: m except Error as e: handler(e)]: only [Error] is caught. *)
Definition try_error {E T} (m : exc E T) (handler : E -> exc E T) : exc E T :=
  match m with
  | Raise e => handler e
  | other => other
  end.

(** Python's [dict] lookup, on an association list whose keys are unique. *)
Fixpoint lookup {X} (k : string) (d : list (string * X)) : option X :=
  match d with
  | [] => None
  | (k', x) :: d' => if String.eqb k k' then Some x else lookup k d'
  end.

(** [d[k] = x]: an existing key keeps its place, a new one goes last. *)
Fixpoint dict_set {X} (k : string) (x : X) (d : list (string * X))
  : list (string * X) :=
  match d with
  | [] => [(k, x)]
  | (k', x') :: d' =>
      if String.eqb k k' then (k', x) :: d' else (k', x') :: dict_set k x d'
  end.

Module Processor.
Section Core.

(** [A]: the items of the stream; [V]: the [ResultValue] type;
    [Hd]: the concrete [HeadRule] subclasses. *)
Variables A V Hd : Type.
Variable A_eqb : A -> A -> bool.

(** [processor.Result]: [rule_name], [value] and [children]. *)
Inductive result : Type :=
| mkResult (rule_name : option string) (value : option V)
           (children : list result).

Definition rule_name (r : result) := let 'mkResult n _ _ := r in n.
Definition value (r : result) := let 'mkResult _ v _ := r in v.
Definition children (r : result) := let 'mkResult _ _ cs := r in cs.

(** [Result.with_rule_name] *)
Definition with_rule_name (name : string) (r : result) : result :=
  mkResult (Some name) (value r) (children r).

(** The rule variants of [processor.py], [stream_processor.HeadRule] and
    [lexer.Not]. *)
Inductive rule : Type :=
| HeadRule (h : Hd)
| Ref (rule_name : string)
| And (children : list rule)
| Or (children : list rule)
| ZeroOrMore (child : rule)
| OneOrMore (child : rule)
| ZeroOrOne (child : rule)
| UntilEmpty (child : rule)
| Not (child : rule).

(** [HeadRule.pred] and [HeadRule.result], abstract in
    [stream_processor.HeadRule]; [not_value] is the value [lexer.Not] gives
    the item it consumes. *)
Variable pred : Hd -> A -> bool.
Variable head_result : Hd -> A -> result.
Variable not_value : A -> V.

(** [stream_processor.Stream] and its subclass [lexer.StateValue]. *)
Inductive stream_class : Type := StreamClass | LexerStateValue.

Record stream : Type := mkStream { cls : stream_class; values : list A }.

(** [processor.Processor]: [root_rule_name] and the [rules] dict. *)
Record processor : Type :=
  mkProcessor { root_rule_name : string; rules : list (string * rule) }.

(** [processor.State]: [processor] and [value]. *)
Record state : Type := mkState { proc : processor; sv : stream }.

Definition with_value (st : state) (s : stream) : state := mkState (proc st) s.

(** The messages of the errors raised by the rules: the f-strings with the
    objects they interpolate. *)
Inductive message : Type :=
| MsgText (s : string)
| MsgFailedToMatchHead (h : Hd) (head : A)
| MsgNotAdvancing (r : rule) (st : state) (res : result)
| MsgChildApplied (res : result) (st : state).

(** [processor.Error]: [rule_name], [msg] and [children]. *)
Inductive error : Type :=
| mkError (err_rule_name : option string) (msg : option message)
          (err_children : list error).

Definition err_rule_name (e : error) := let 'mkError n _ _ := e in n.
Definition msg (e : error) := let 'mkError _ m _ := e in m.
Definition err_children (e : error) := let 'mkError _ _ cs := e in cs.

(** [Error.with_rule_name] *)
Definition error_with_rule_name (name : string) (e : error) : error :=
  mkError (Some name) (msg e) (err_children e).

Definition stream_empty_error : error :=
  mkError None (Some (MsgText "stream empty")) [].

(** [Stream.empty], [Stream.head], and [tail]: [Stream.tail] builds
    [self.__class__(self.values[1:])]; [StateValue.tail] then reads
    [._values] of it, an attribute the dataclass does not have. *)
Definition empty (s : stream) : bool :=
  match values s with [] => true | _ => false end.

Definition head (s : stream) : exc error A :=
  match values s with
  | [] => Raise stream_empty_error
  | x :: _ => Ok x
  end.

Definition tail (s : stream) : exc error stream :=
  match values s with
  | [] => Raise stream_empty_error
  | _ :: xs =>
      match cls s with
      | StreamClass => Ok (mkStream StreamClass xs)
      | LexerStateValue => HostRaise (AttributeError "_values")
      end
  end.

(** Formatting a state into a message: [State.__repr__] is
    [repr(self.value)]; [StateValue.__repr__] reads [self._values] when the
    stream is not empty. *)
Definition repr_state (st : state) : exc error unit :=
  match cls (sv st), values (sv st) with
  | LexerStateValue, _ :: _ => HostRaise (AttributeError "_values")
  | _, _ => Ok tt
  end.

(** [child_state == child_result.state] in [UntilEmpty.apply]: the
    dataclass equality of the two states.  Both carry the same processor
    object (every rule builds its states with [with_value], see
    [apply_keeps_processor]), so the comparison is that of the streams. *)
Definition stream_eqb (s1 s2 : stream) : bool :=
  match cls s1, cls s2 with
  | StreamClass, StreamClass | LexerStateValue, LexerStateValue =>
      (fix eq (l1 l2 : list A) : bool :=
         match l1, l2 with
         | [], [] => true
         | x :: l1', y :: l2' => A_eqb x y && eq l1' l2'
         | _, _ => false
         end) (values s1) (values s2)
  | _, _ => false
  end.

Definition state_eqb (s1 s2 : state) : bool := stream_eqb (sv s1) (sv s2).

Definition outcome := exc error (result * state).

(** [ResultAndState.as_child_result] *)
Definition as_child_result (rs : result * state) : result * state :=
  (mkResult None None [fst rs], snd rs).

(** Each variant's [apply], given the [apply] of its children as [ap]. *)
Section Variants.
Variable ap : rule -> state -> outcome.

(** [HeadRule.apply] *)
Definition head_rule_apply (h : Hd) (st : state) : outcome :=
  let* hd := head (sv st) in
  if pred h hd then
    let* hd' := head (sv st) in
    let* tl := tail (sv st) in
    Ok (head_result h hd', with_value st tl)
  else
    let* hd' := head (sv st) in
    Raise (mkError None (Some (MsgFailedToMatchHead h hd')) []).

(** [Processor.apply_rule_to_state] *)
Definition apply_rule_with (name : string) (st : state) : outcome :=
  match lookup name (rules (proc st)) with
  | None => Raise (mkError None (Some (MsgText (String.append "unknown rule " name))) [])
  | Some r =>
      match ap r st with
      | Ok (res, st') => Ok (with_rule_name name res, st')
      | Raise e => Raise (error_with_rule_name name e)
      | HostRaise h => HostRaise h
      | OutOfFuel => OutOfFuel
      end
  end.

(** [Ref.apply] *)
Definition ref_apply (name : string) (st : state) : outcome :=
  try_error (let* rs := apply_rule_with name st in Ok (as_child_result rs))
            (fun e => Raise (mkError None None [e])).

(** [And.apply]: the loop threads [child_state]; a child's [Error]
    propagates out of the loop unchanged. *)
Fixpoint and_loop (cs : list rule) (acc : list result) (st : state) : outcome :=
  match cs with
  | [] => Ok (mkResult None None acc, st)
  | c :: cs' =>
      let* rs := ap c st in
      and_loop cs' (acc ++ [fst rs]) (snd rs)
  end.

Definition and_apply (cs : list rule) (st : state) : outcome :=
  and_loop cs [] st.

(** [Or.apply] *)
Fixpoint or_loop (cs : list rule) (errs : list error) (st : state) : outcome :=
  match cs with
  | [] => Raise (mkError None None errs)
  | c :: cs' =>
      match ap c st with
      | Ok rs => Ok (as_child_result rs)
      | Raise e => or_loop cs' (errs ++ [e]) st
      | HostRaise h => HostRaise h
      | OutOfFuel => OutOfFuel
      end
  end.

Definition or_apply (cs : list rule) (st : state) : outcome := or_loop cs [] st.

(** The [while True] loop of [ZeroOrMore.apply] and [OneOrMore.apply],
    run at most [k] times. *)
Fixpoint repeat_loop (k : nat) (c : rule) (acc : list result) (st : state)
  : outcome :=
  match k with
  | O => OutOfFuel
  | S k' =>
      match ap c st with
      | Ok (res, st') => repeat_loop k' c (acc ++ [res]) st'
      | Raise _ => Ok (mkResult None None acc, st)
      | HostRaise h => HostRaise h
      | OutOfFuel => OutOfFuel
      end
  end.

(** [UntilEmpty.apply]: the [while not child_state.value.empty] loop,
    run at most [k] times. *)
Fixpoint until_empty_loop (k : nat) (self c : rule) (acc : list result)
  (st : state) : outcome :=
  if empty (sv st) then Ok (mkResult None None acc, st) else
  match k with
  | O => OutOfFuel
  | S k' =>
      let* rs := ap c st in
      if state_eqb st (snd rs) then
        let* _ := repr_state st in
        Raise (mkError None (Some (MsgNotAdvancing self st (fst rs))) [])
      else until_empty_loop k' self c (acc ++ [fst rs]) (snd rs)
  end.

(** [ZeroOrOne.apply] *)
Definition zero_or_one_apply (c : rule) (st : state) : outcome :=
  try_error (let* rs := ap c st in Ok (as_child_result rs))
            (fun _ => Ok (mkResult None None [], st)).

(** [lexer.Not.apply] *)
Definition not_apply (c : rule) (st : state) : outcome :=
  if empty (sv st) then Raise (mkError None (Some (MsgText "state empty")) [])
  else
    match ap c st with
    | Ok rs =>
        let* _ := repr_state (snd rs) in
        Raise (mkError None (Some (MsgChildApplied (fst rs) (snd rs))) [])
    | Raise _ =>
        let* hd := head (sv st) in
        let* tl := tail (sv st) in
        Ok (mkResult None (Some (not_value hd)) [], with_value st tl)
    | HostRaise h => HostRaise h
    | OutOfFuel => OutOfFuel
    end.

End Variants.

(** [Rule.apply], dispatched on the variant; each call spends one unit of
    [fuel], each loop iteration is bounded by the fuel left. *)
Fixpoint apply (fuel : nat) (r : rule) (st : state) {struct fuel} : outcome :=
  match fuel with
  | O => OutOfFuel
  | S n =>
      match r with
      | HeadRule h => head_rule_apply h st
      | Ref name => ref_apply (apply n) name st
      | And cs => and_apply (apply n) cs st
      | Or cs => or_apply (apply n) cs st
      | ZeroOrMore c => repeat_loop (apply n) n c [] st
      | OneOrMore c =>
          let* rs := apply n c st in
          repeat_loop (apply n) n c [fst rs] (snd rs)
      | ZeroOrOne c => zero_or_one_apply (apply n) c st
      | UntilEmpty c => until_empty_loop (apply n) n r c [] st
      | Not c => not_apply (apply n) c st
      end
  end.

(** [Processor.apply_rule_to_state], [apply_rule] and [apply_root]. *)
Definition apply_rule_to_state (fuel : nat) (name : string) (st : state)
  : outcome :=
  apply_rule_with (apply fuel) name st.

Definition apply_rule (fuel : nat) (p : processor) (name : string)
  (s : stream) : outcome :=
  apply_rule_to_state fuel name (mkState p s).

Definition apply_root (fuel : nat) (p : processor) (s : stream) : outcome :=
  apply_rule fuel p (root_rule_name p) s.

End Core.
End Processor.

Arguments Processor.mkResult {V}.
Arguments Processor.rule_name {V}.
Arguments Processor.value {V}.
Arguments Processor.children {V}.
Arguments Processor.HeadRule {Hd}.
Arguments Processor.Ref {Hd}.
Arguments Processor.And {Hd}.
Arguments Processor.Or {Hd}.
Arguments Processor.ZeroOrMore {Hd}.
Arguments Processor.OneOrMore {Hd}.
Arguments Processor.ZeroOrOne {Hd}.
Arguments Processor.UntilEmpty {Hd}.
Arguments Processor.Not {Hd}.
Arguments Processor.mkStream {A}.
Arguments Processor.cls {A}.
Arguments Processor.values {A}.
Arguments Processor.mkProcessor {Hd}.
Arguments Processor.root_rule_name {Hd}.
Arguments Processor.rules {Hd}.
Arguments Processor.mkState {A Hd}.
Arguments Processor.proc {A Hd}.
Arguments Processor.sv {A Hd}.
Arguments Processor.mkError {A V Hd}.
Arguments Processor.err_rule_name {A V Hd}.
Arguments Processor.msg {A V Hd}.
Arguments Processor.err_children {A V Hd}.
Arguments Processor.MsgText {A V Hd}.
Arguments Processor.MsgFailedToMatchHead {A V Hd}.
Arguments Processor.MsgNotAdvancing {A V Hd}.
Arguments Processor.MsgChildApplied {A V Hd}.

(** * [core/lexer.py] *)
Module Lexer.
Import Processor.

(** [Position] and [Position.after]. *)
Record Position : Type := mkPosition { line : Z; column : Z }.

Fixpoint after_loop (s : string) (line column : Z) : Position :=
  match s with
  | EmptyString => mkPosition line column
  | String c s' =>
      if Ascii.eqb c "010"%char then after_loop s' (line + 1)%Z 0%Z
      else after_loop s' line (column + 1)%Z
  end.

Definition after (p : Position) (s : string) : Position :=
  after_loop s (line p) (column p).

(** Reading aids for [after]: the newlines of a string, whether it has one,
    and the characters after its last newline. *)
Fixpoint count_newlines (s : string) : Z :=
  match s with
  | EmptyString => 0%Z
  | String c s' => ((if Ascii.eqb c "010"%char then 1 else 0) + count_newlines s')%Z
  end.

Fixpoint has_newline (s : string) : bool :=
  match s with
  | EmptyString => false
  | String c s' => Ascii.eqb c "010"%char || has_newline s'
  end.

Fixpoint after_last_newline (s : string) : string :=
  match s with
  | EmptyString => EmptyString
  | String c s' =>
      if has_newline s' then after_last_newline s'
      else if Ascii.eqb c "010"%char then s' else String c s'
  end.

(** [_Item]: a character and its position. *)
Record item : Type := mkItem { item_value : ascii; position : Position }.

Definition item_eqb (x y : item) : bool :=
  Ascii.eqb (item_value x) (item_value y)
  && Z.eqb (line (position x)) (line (position y))
  && Z.eqb (column (position x)) (column (position y)).

(** [_ResultValue] holds the matched text. *)
Definition result_value := string.

(** The [HeadRule] subclasses of the lexer: [Literal] and [Class]. *)
Inductive head_rule : Type :=
| Literal (value : ascii)
| Class (min max : ascii).

(** [Literal.pred] and [Class.pred]: one-character strings compare by code
    point. *)
Definition pred (h : head_rule) (it : item) : bool :=
  match h with
  | Literal v => Ascii.eqb v (item_value it)
  | Class lo hi =>
      (nat_of_ascii lo <=? nat_of_ascii (item_value it))
      && (nat_of_ascii (item_value it) <=? nat_of_ascii hi)
  end.

(** [lexer.HeadRule.result]: [Result(value=_ResultValue(head.value))]. *)
Definition head_result (_ : head_rule) (it : item) : result result_value :=
  mkResult None (Some (String (item_value it) EmptyString)) [].

Definition not_value (it : item) : result_value :=
  String (item_value it) EmptyString.

Notation rule := (Processor.rule head_rule).
Notation result := (Processor.result result_value).
Notation state := (Processor.state item head_rule).
Notation error := (Processor.error item result_value head_rule).
Notation outcome := (Processor.outcome item result_value head_rule).

Definition apply : nat -> rule -> state -> outcome :=
  Processor.apply item result_value head_rule item_eqb pred head_result not_value.

Definition apply_root := Processor.apply_root item result_value head_rule item_eqb pred head_result not_value.

(** [load_state_value]: each character paired with the position reached
    after the characters before it. *)
Fixpoint load_items (pos : Position) (s : string) : list item :=
  match s with
  | EmptyString => []
  | String c s' => mkItem c pos :: load_items (after pos (String c EmptyString)) s'
  end.

Definition load_state_value (s : string) : stream item :=
  mkStream LexerStateValue (load_items (mkPosition 0 0) s).

(** [Token] *)
Record Token : Type := mkToken { type : string; token_value : string }.

Definition ROOT_RULE_NAME : string := "_root".
Definition RULES_RULE_NAME : string := "_rules".

(** [Lexer.__init__]: the token rules, then [_root] and [_rules]. *)
Definition lexer_processor (token_rules : list (string * rule)) : processor head_rule :=
  let rs := dict_set ROOT_RULE_NAME (UntilEmpty (Ref RULES_RULE_NAME)) token_rules in
  let rs := dict_set RULES_RULE_NAME (Or (map (fun kv => Ref (fst kv)) token_rules)) rs in
  mkProcessor ROOT_RULE_NAME rs.

(** [Lexer.token_types]: the keys other than [_root] and [_rules]. *)
Definition token_types (p : processor head_rule) : list string :=
  map fst (filter (fun kv => negb (String.eqb (fst kv) ROOT_RULE_NAME
                                   || String.eqb (fst kv) RULES_RULE_NAME))
                  (rules p)).

(** [Result.where] and [Result.where_children]. *)
Fixpoint where_ {W} (pr : Processor.result W -> bool) (r : Processor.result W)
  : Processor.result W :=
  if pr r then mkResult None None [r] else
  let 'mkResult _ _ cs := r in
  mkResult None None (flat_map (fun c => children (where_ pr c)) cs).

Definition rule_name_in {W} (names : list string) (r : Processor.result W) : bool :=
  match rule_name r with
  | Some n => existsb (String.eqb n) names
  | None => false
  end.

(** [Lexer._flatten_result_value] *)
Fixpoint flatten_result_value (r : result) : string :=
  let 'mkResult _ v cs := r in
  String.append (match v with Some s => s | None => EmptyString end)
  ((fix go (cs : list result) : string :=
        match cs with
        | [] => EmptyString
        | c :: cs' => String.append (flatten_result_value c) (go cs')
        end) cs).

(** [Lexer._token_from_result] (the token results all carry a rule name) *)
Definition token_from_result (r : result) : Token :=
  mkToken (match rule_name r with Some n => n | None => EmptyString end)
          (flatten_result_value r).

Definition starts_with_underscore (s : string) : bool :=
  match s with String "_"%char _ => true | _ => false end.

(** [Lexer._token_stream_from_result] *)
Definition token_stream_from_result (p : processor head_rule) (r : result)
  : list Token :=
  filter (fun t => negb (starts_with_underscore (type t)))
    (map token_from_result (children (where_ (rule_name_in (token_types p)) r))).

(** [Lexer.apply] *)
Definition lexer_apply (fuel : nat) (token_rules : list (string * rule))
  (input : string) : exc error (list Token) :=
  let p := lexer_processor token_rules in
  let* rs := apply_root fuel p (load_state_value input) in
  Ok (token_stream_from_result p (fst rs)).

End Lexer.

(** * [core/loader.py]: [load_lexer_rule], [load_lexer] and [load_parser] *)
Module Loader.
Import Processor Lexer.
Local Open Scope string_scope.

(** The operators of the lexer-rule DSL, and the rules of [lexer_lexer]:
    one [Literal] per operator, then [literal = Not(Or(operators))]. *)
Definition operators : string := "()[-]+?*!^|\".

Definition operator_rules : list (string * Lexer.rule) :=
  map (fun c => (String c EmptyString, HeadRule (Literal c)))
      (list_ascii_of_string operators).

Definition lexer_lexer_rules : list (string * Lexer.rule) :=
  dict_set "literal" (Not (Or (map snd operator_rules))) operator_rules.

(** The token declarations of [parser_lexer] in [load_parser]. *)
Definition dq : string := String "034"%char EmptyString.

Definition parser_lexer_decls : list (string * string) :=
  [("_ws", "\w+"); ("=", "="); (";", ";"); ("->", "\->"); ("|", "\|");
   ("(", "\("); (")", "\)"); ("*", "\*"); ("+", "\+"); ("?", "\?");
   ("!", "\!"); ("id", "(_|[a-z]|[A-Z]|[0-9])+");
   ("str", String.append dq (String.append "(^" (String.append dq
             (String.append ")+" dq))))].

(** Python's attribute reference [obj.name] on a module or a class whose
    namespace holds [names]: [AttributeError(name)] when the name is not
    there. *)
Definition getattr {E} (names : list string) (name : string) : exc E unit :=
  if existsb (String.eqb name) names then Ok tt
  else HostRaise (AttributeError name).

(** [a.x; a.y; ...] evaluated in turn. *)
Fixpoint getattrs {E} (names : list string) (refs : list string) : exc E unit :=
  match refs with
  | [] => Ok tt
  | r :: refs' => let* _ := getattr names r in getattrs names refs'
  end.

(** The attributes of the class [lexer.Lexer] other than the dunder ones:
    its own body ([_flatten_result_value], [_token_from_result],
    [_token_stream_from_result], [token_rules], [token_types], [apply]) and
    its bases ([apply_rule_to_state], [apply_rule] and [apply_root] of
    [processor.Processor], [_is_protocol] of [typing.Generic]).  There is
    no [Token]: [Token] is a module-level class of [lexer.py]. *)
Definition lexer_class_attrs : list string :=
  ["_flatten_result_value"; "_is_protocol"; "_token_from_result";
   "_token_stream_from_result"; "apply"; "apply_root"; "apply_rule";
   "apply_rule_to_state"; "token_rules"; "token_types"].

(** The module-level names of [core/parser.py]: its imports (lines 1-6)
    and [class Parser] (line 10).  The rule combinators ([And], [Or],
    [ZeroOrMore], [OneOrMore], [UntilEnd], [ZeroOrOne], [Literal]) are
    nested in [Parser]; there is no [UntilEmpty], [Ref] or [Any]. *)
Definition parser_module_attrs : list string :=
  ["Lexer"; "ABC"; "abstractmethod"; "dataclass"; "field";
   "cached_property"; "total_ordering"; "Mapping"; "MutableSequence";
   "Optional"; "Sequence"; "Parser"].

(** Importing [core/parser.py].  The import lines succeed; then the body
    of [class Parser] runs, and the only attribute references on an
    imported name that it evaluates are [Lexer.Token] (the return
    annotation of [State.head], line 52, and the annotation of
    [Result.token], line 67) and [Lexer.Result] (the parameter annotation
    of [Parser.apply], line 204).  The annotation ['Lexer.Result'] of
    line 38 is a string and is not evaluated. *)
Definition import_parser {E} : exc E unit :=
  getattrs lexer_class_attrs ["Token"; "Token"; "Result"].

(** Importing [core/loader.py]: [from core import lexer, parser,
    processor].  [lexer] and [processor] import without error. *)
Definition import_loader {E} : exc E unit := import_parser.

Section Load.

(** [E]: [processor.Error] as the loader sees it; [error_with m cs] is
    [processor.Error(msg=m, children=cs)].  [P]: a [parser.Parser]. *)
Variables E P : Type.
Variable error_with : string -> list E -> E.

(** [load_lexer_rule] builds [lexer_lexer = lexer.Lexer(lexer_rules)], then
    evaluates [parser.Parser(...)]: first the callee [parser.Parser], then
    the dict display, whose first value [parser.UntilEmpty(parser.Ref(...))]
    starts with [parser.UntilEmpty].  [load_lexer_rule_rest] is the rest of
    the body (the other combinators, [lexer_parser.apply(input)] and
    [load_and]); it runs only if these references succeed. *)
Variable load_lexer_rule_rest : processor head_rule -> string -> exc E Lexer.rule.

Definition load_lexer_rule (input : string) : exc E Lexer.rule :=
  let lexer_lexer := lexer_processor lexer_lexer_rules in
  let* _ := getattr parser_module_attrs "Parser" in
  let* _ := getattr parser_module_attrs "UntilEmpty" in
  load_lexer_rule_rest lexer_lexer input.

(** [load_lexer]: the dict comprehension, entry by entry; the [Lexer] is
    determined by its token rules. *)
Fixpoint load_lexer (decls : list (string * string))
  : exc E (list (string * Lexer.rule)) :=
  match decls with
  | [] => Ok []
  | (name, value) :: decls' =>
      let* r := load_lexer_rule value in
      let* rs := load_lexer decls' in
      Ok ((name, r) :: rs)
  end.

(** [load_parser]: [load_lexer] in a [try] that wraps a
    [processor.Error]; then [parser_parser = parser.Parser('root',
    {'root': parser.UntilEmpty(...), ...}, parser_lexer)], whose first
    references are again [parser.Parser] and [parser.UntilEmpty].
    [load_parser_rest] is the rest of the body ([parser_parser.apply(input)]
    and the walk of its tree). *)
Variable load_parser_rest : list (string * Lexer.rule) -> string -> exc E P.

Definition load_parser (input : string) : exc E P :=
  match load_lexer parser_lexer_decls with
  | Raise e => Raise (error_with "failed to load parser lexer" [e])
  | HostRaise h => HostRaise h
  | OutOfFuel => OutOfFuel
  | Ok parser_lexer =>
      let* _ := getattr parser_module_attrs "Parser" in
      let* _ := getattr parser_module_attrs "UntilEmpty" in
      load_parser_rest parser_lexer input
  end.

(** A program calling [loader.load_parser(input)]: [from core import
    loader] runs first. *)
Definition run_load_parser (input : string) : exc E P :=
  let* _ := import_loader in
  load_parser input.

End Load.
End Loader.

(** * Queries on results, and reading aids for the statements below *)
Module ResultQuery.
Import Processor Lexer.

(** The [Error] that [Result.where_n] raises: its message
    [f'result count mismatch expected {n} got {len(result.children)} in
    {result} from {self}'], kept as the values it interpolates. *)
Inductive where_error (V : Type) : Type :=
| ResultCountMismatch (expected got : nat) (found self : Processor.result V).

Arguments ResultCountMismatch {V}.

(** [Result.where_n] *)
Definition where_n {V} (n : nat) (pr : Processor.result V -> bool)
  (r : Processor.result V) : exc (where_error V) (Processor.result V) :=
  let res := where_ pr r in
  if negb (Nat.eqb (length (children res)) n)
  then Raise (ResultCountMismatch n (length (children res)) res r)
  else Ok res.

(** [Result.where_one]: [self.where_n(1, pred).children[0]]. *)
Definition where_one {V} (pr : Processor.result V -> bool)
  (r : Processor.result V) : exc (where_error V) (Processor.result V) :=
  let* res := where_n 1 pr r in
  match children res with
  | x :: _ => Ok x
  | [] => Ok r (* not reached: [where_n 1] gave one child *)
  end.

(** Reading aids: whether a computation raised a [processor.Error], and
    whether it returned normally. *)
Definition raises_error {E T} (o : exc E T) : bool :=
  match o with Raise _ => true | _ => false end.

Definition succeeds {E T} (o : exc E T) : bool :=
  match o with Ok _ => true | _ => false end.

(** Reading aids: the longest prefix of a list whose elements satisfy [p],
    and what follows it. *)
Fixpoint take_while {X} (p : X -> bool) (l : list X) : list X :=
  match l with
  | [] => []
  | x :: l' => if p x then x :: take_while p l' else []
  end.

Fixpoint drop_while {X} (p : X -> bool) (l : list X) : list X :=
  match l with
  | [] => []
  | x :: l' => if p x then drop_while p l' else l
  end.

End ResultQuery.

(** * Properties of the rule variants *)
Module ProcessorFacts.
Import Processor.

Section Facts.
Variables A V Hd : Type.
Variable A_eqb : A -> A -> bool.
Variable pred : Hd -> A -> bool.
Variable head_result : Hd -> A -> result V.
Variable not_value : A -> V.

Local Notation rule := (rule Hd).
Local Notation state := (state A Hd).
Local Notation error := (error A V Hd).
Local Notation outcome := (outcome A V Hd).
Local Notation apply := (apply A V Hd A_eqb pred head_result not_value).
Local Notation apply_rule_to_state :=
  (apply_rule_to_state A V Hd A_eqb pred head_result not_value).

(** Peel one step off a hypothesis [m = Ok _] built with [bind]. *)
Ltac bind_ok H :=
  match type of H with
  | bind ?m _ = _ =>
      let E := fresh "E" in destruct m eqn:E; simpl in H; try discriminate H
  end.

Section Loops.
Variable ap : rule -> state -> outcome.

Lemma or_loop_all_fail (cs : list rule) (errs acc : list error) (st : state) :
  Forall2 (fun c e => ap c st = Raise e) cs errs ->
  or_loop A V Hd ap cs acc st = Raise (mkError None None (acc ++ errs)).
Proof.
  intros Hall. revert acc.
  induction Hall as [|c e cs' errs' Hc Hrest IH]; intros acc; simpl.
  - rewrite app_nil_r. reflexivity.
  - rewrite Hc, IH, <- app_assoc. reflexivity.
Qed.

Lemma or_loop_first_success (pre post : list rule) (c : rule)
  (errs acc : list error) (st : state) (rs : result V * state) :
  Forall2 (fun c e => ap c st = Raise e) pre errs ->
  ap c st = Ok rs ->
  or_loop A V Hd ap (pre ++ c :: post) acc st = Ok (as_child_result _ _ _ rs).
Proof.
  intros Hall Hc. revert acc.
  induction Hall as [|c' e cs' errs' Hc' Hrest IH]; intros acc; simpl.
  - rewrite Hc. reflexivity.
  - rewrite Hc'. apply IH.
Qed.

(** A successful prefix of an [And] hands its state on to the rest. *)
Lemma and_loop_app (pre rest : list rule) (acc : list (result V)) (st : state)
  (r : result V) (s : state) :
  and_loop A V Hd ap pre acc st = Ok (r, s) ->
  exists acc', r = mkResult None None acc'
    /\ and_loop A V Hd ap (pre ++ rest) acc st = and_loop A V Hd ap rest acc' s.
Proof.
  revert acc st. induction pre as [|c pre' IH]; intros acc st H; simpl in *.
  - inversion H; subst. exists acc. split; reflexivity.
  - destruct (ap c st) as [[r1 s1]| e | h |] eqn:Ec; simpl in *; try discriminate.
    apply IH. exact H.
Qed.

End Loops.

(** Every rule keeps the processor of the state it is given: the states it
    returns are built with [with_value] (the justification of [state_eqb]). *)
Definition keeps (ap : rule -> state -> outcome) : Prop :=
  forall r st res st', ap r st = Ok (res, st') -> proc st' = proc st.

Ltac finish_keeps :=
  repeat match goal with
  | H : Ok _ = Ok _ |- _ => inversion H; subst; clear H
  | H : Raise _ = Ok _ |- _ => discriminate H
  | H : HostRaise _ = Ok _ |- _ => discriminate H
  | H : OutOfFuel = Ok _ |- _ => discriminate H
  | H : bind ?m _ = Ok _ |- _ =>
      let E := fresh "E" in destruct m eqn:E; simpl in H
  | H : (if ?b then _ else _) = Ok _ |- _ =>
      let E := fresh "E" in destruct b eqn:E
  | H : match ?m with _ => _ end = Ok _ |- _ =>
      let E := fresh "E" in destruct m eqn:E
  end; simpl in *; auto.

Lemma head_rule_apply_keeps h st res st' :
  head_rule_apply A V Hd pred head_result h st = Ok (res, st') -> proc st' = proc st.
Proof. unfold head_rule_apply. intros H. finish_keeps. Qed.

Section KeepsLoops.
Variable ap : rule -> state -> outcome.
Hypothesis Hap : keeps ap.

Lemma and_loop_keeps cs acc st res st' :
  and_loop A V Hd ap cs acc st = Ok (res, st') -> proc st' = proc st.
Proof.
  revert acc st. induction cs as [|c cs IH]; intros acc st H; simpl in H.
  - inversion H; reflexivity.
  - destruct (ap c st) as [[r1 s1]| | |] eqn:E; simpl in H; try discriminate.
    rewrite (IH _ _ H). exact (Hap _ _ _ _ E).
Qed.

Lemma or_loop_keeps cs errs st res st' :
  or_loop A V Hd ap cs errs st = Ok (res, st') -> proc st' = proc st.
Proof.
  revert errs. induction cs as [|c cs IH]; intros errs H; simpl in H.
  - discriminate.
  - destruct (ap c st) as [[r1 s1]| | |] eqn:E; try discriminate.
    + inversion H; subst. exact (Hap _ _ _ _ E).
    + exact (IH _ H).
Qed.

Lemma repeat_loop_keeps k c acc st res st' :
  repeat_loop A V Hd ap k c acc st = Ok (res, st') -> proc st' = proc st.
Proof.
  revert acc st. induction k as [|k IH]; intros acc st H; simpl in H.
  - discriminate.
  - destruct (ap c st) as [[r1 s1]| | |] eqn:E; try discriminate.
    + rewrite (IH _ _ H). exact (Hap _ _ _ _ E).
    + inversion H; reflexivity.
Qed.

Lemma until_empty_loop_keeps k self c acc st res st' :
  until_empty_loop A V Hd A_eqb ap k self c acc st = Ok (res, st') ->
  proc st' = proc st.
Proof.
  revert acc st. induction k as [|k IH]; intros acc st H; simpl in H;
    destruct (empty A (sv st)); try (inversion H; reflexivity); try discriminate.
  destruct (ap c st) as [[r1 s1]| | |] eqn:E; simpl in H; try discriminate.
  destruct (state_eqb A Hd A_eqb st s1).
  - destruct (repr_state A V Hd st); discriminate.
  - rewrite (IH _ _ H). exact (Hap _ _ _ _ E).
Qed.

End KeepsLoops.

Lemma apply_keeps_processor (fuel : nat) : keeps (apply fuel).
Proof.
  induction fuel as [|n IH]; intros r st res st' H; simpl in H; [discriminate|].
  destruct r as [h|name|cs|cs|c|c|c|c|c].
  - exact (head_rule_apply_keeps _ _ _ _ H).
  - unfold ref_apply, apply_rule_with in H.
    destruct (lookup name (rules (proc st))); simpl in H; try discriminate.
    destruct (apply n r st) as [[r1 s1]| | |] eqn:E; simpl in H; try discriminate.
    inversion H; subst. exact (IH _ _ _ _ E).
  - exact (and_loop_keeps _ IH _ _ _ _ _ H).
  - exact (or_loop_keeps _ IH _ _ _ _ _ H).
  - exact (repeat_loop_keeps _ IH _ _ _ _ _ _ H).
  - destruct (apply n c st) as [[r1 s1]| | |] eqn:E; simpl in H; try discriminate.
    rewrite (repeat_loop_keeps _ IH _ _ _ _ _ _ H). exact (IH _ _ _ _ E).
  - unfold zero_or_one_apply in H.
    destruct (apply n c st) as [[r1 s1]| | |] eqn:E; simpl in H; try discriminate.
    + inversion H; subst. exact (IH _ _ _ _ E).
    + inversion H; reflexivity.
  - exact (until_empty_loop_keeps _ IH _ _ _ _ _ _ _ H).
  - unfold not_apply in H. destruct (empty A (sv st)); try discriminate.
    destruct (apply n c st) as [[r1 s1]| | |] eqn:E; simpl in H; try discriminate.
    + destruct (repr_state A V Hd s1); discriminate.
    + destruct (head A V Hd (sv st)); simpl in H; try discriminate.
      destruct (tail A V Hd (sv st)); simpl in H; try discriminate.
      inversion H; reflexivity.
Qed.

(** On a plain [stream_processor.Stream], a [HeadRule] fails on the empty
    stream with "stream empty", fails naming itself and the head when
    [pred] rejects the head, and otherwise consumes the head. *)
Lemma head_rule_plain_stream (n : nat) (h : Hd) (st : state) :
  cls (sv st) = StreamClass ->
  apply (S n) (HeadRule h) st =
    match values (sv st) with
    | [] => Raise (stream_empty_error A V Hd)
    | x :: xs =>
        if pred h x
        then Ok (head_result h x, with_value A Hd st (mkStream StreamClass xs))
        else Raise (mkError None (Some (MsgFailedToMatchHead h x)) [])
    end.
Proof.
  intros Hcls. simpl. unfold head_rule_apply, head, tail.
  rewrite Hcls. destruct (values (sv st)) as [|x xs]; simpl; [reflexivity|].
  destruct (pred h x); reflexivity.
Qed.

(** On a plain stream, [UntilEmpty] turns a repetition that leaves the state
    unchanged into the "not advancing" error. *)
Lemma until_empty_not_advancing_plain (n : nat) (c : rule) (st : state)
  (res : result V) (st' : state) :
  cls (sv st) = StreamClass ->
  empty A (sv st) = false ->
  apply n c st = Ok (res, st') ->
  state_eqb A Hd A_eqb st st' = true ->
  apply (S n) (UntilEmpty c) st =
    Raise (mkError None (Some (MsgNotAdvancing (UntilEmpty c) st res)) []).
Proof.
  intros Hcls Hne Hc Heq. destruct n as [|m]; [discriminate Hc|].
  change (apply (S (S m)) (UntilEmpty c) st) with
    (until_empty_loop A V Hd A_eqb (apply (S m)) (S m) (UntilEmpty c) c [] st).
  cbn -[Processor.apply]. rewrite Hne, Hc. cbn -[Processor.apply]. rewrite Heq.
  unfold repr_state. rewrite Hcls. reflexivity.
Qed.

(** ** C2 (amended)
    If the children of an [And] before some child succeed, threading the
    state, and that child fails with an [Error], the whole [And] fails with
    exactly that child's [Error], propagated unchanged: no new error wraps
    it, and the children after it are not tried. *)
Theorem and_child_error_propagates (n : nat) (pre post : list rule) (c : rule)
  (st st_mid : state) (r : result V) (e : error) :
  apply (S n) (And pre) st = Ok (r, st_mid) ->
  apply n c st_mid = Raise e ->
  apply (S n) (And (pre ++ c :: post)) st = Raise e.
Proof.
  intros Hpre Hc. simpl in *. unfold and_apply in *.
  destruct (and_loop_app _ pre (c :: post) [] st r st_mid Hpre)
    as [acc' [_ Happ]].
  rewrite Happ. simpl. rewrite Hc. reflexivity.
Qed.

(** ** C3
    When every child of an [Or] fails at a state, the [Or] raises an error
    whose children are the errors of all of its children, in declaration
    order. *)
Theorem or_all_fail_errors (n : nat) (cs : list rule) (errs : list error)
  (st : state) :
  Forall2 (fun c e => apply n c st = Raise e) cs errs ->
  apply (S n) (Or cs) st = Raise (mkError None None errs).
Proof.
  intros Hall. simpl. unfold or_apply.
  exact (or_loop_all_fail _ cs errs [] st Hall).
Qed.

(** ** C4
    An [Or] tries its children in declaration order and returns the result of
    the first that succeeds as the sole child of an unnamed [Result], with
    the state that child returned; the children after it ([post]) play no
    part. *)
Theorem or_first_success (n : nat) (pre post : list rule) (c : rule)
  (errs : list error) (st st' : state) (res : result V) :
  Forall2 (fun c e => apply n c st = Raise e) pre errs ->
  apply n c st = Ok (res, st') ->
  apply (S n) (Or (pre ++ c :: post)) st = Ok (mkResult None None [res], st').
Proof.
  intros Hall Hc. simpl. unfold or_apply.
  exact (or_loop_first_success _ pre post c errs [] st (res, st') Hall Hc).
Qed.

(** ** C8
    [apply_rule_to_state] on a name absent from the registry raises the
    [Error] "unknown rule <name>"; on a registered rule it returns the
    rule's [Result] renamed to the name, and re-raises the rule's [Error]
    renamed to the name. *)
Theorem apply_rule_to_state_annotates (n : nat) (name : string) (st : state) :
  match lookup name (rules (proc st)) with
  | None =>
      apply_rule_to_state n name st =
        Raise (mkError None (Some (MsgText (String.append "unknown rule " name))) [])
  | Some r =>
      (forall res st', apply n r st = Ok (res, st') ->
         apply_rule_to_state n name st = Ok (with_rule_name V name res, st'))
      /\ (forall e, apply n r st = Raise e ->
         apply_rule_to_state n name st = Raise (error_with_rule_name A V Hd name e))
  end.
Proof.
  unfold apply_rule_to_state, apply_rule_with.
  destruct (lookup name (rules (proc st))) as [r|]; [|reflexivity].
  split.
  - intros res st' H. rewrite H. reflexivity.
  - intros e H. rewrite H. reflexivity.
Qed.

End Facts.
End ProcessorFacts.

(** * Properties of the lexer *)
Module LexerFacts.
Import Processor Lexer.
Local Open Scope string_scope.

Lemma after_empty (p : Position) : after p EmptyString = p.
Proof. destruct p. reflexivity. Qed.

Lemma after_cons (p : Position) (c : ascii) (s : string) :
  after p (String c s) = after (after p (String c EmptyString)) s.
Proof. unfold after. simpl. destruct (Ascii.eqb c "010"%char); reflexivity. Qed.

Lemma after_single (p : Position) (c : ascii) :
  after p (String c EmptyString) =
    if Ascii.eqb c "010"%char then mkPosition (line p + 1) 0
    else mkPosition (line p) (column p + 1).
Proof. unfold after. simpl. destruct (Ascii.eqb c "010"%char); reflexivity. Qed.

Lemma load_items_nth (s : string) (pos : Position) (i : nat) (c : ascii) :
  String.get i s = Some c ->
  nth_error (load_items pos s) i = Some (mkItem c (after pos (substring 0 i s))).
Proof.
  revert pos i. induction s as [|c' s IH]; intros pos i H; [discriminate H|].
  destruct i as [|j]; simpl in H |- *.
  - inversion H; subst. rewrite after_empty. reflexivity.
  - rewrite (IH _ _ H), (after_cons pos c' (substring 0 j s)). reflexivity.
Qed.

Lemma load_items_length (s : string) (pos : Position) :
  length (load_items pos s) = String.length s.
Proof.
  revert pos. induction s as [|c s IH]; intros pos; simpl; [reflexivity|].
  rewrite IH. reflexivity.
Qed.

(** ** C10
    [Position.after(s)] adds the number of newlines of [s] to the line; the
    column becomes the number of characters after the last newline of [s]
    when [s] has one, and grows by the length of [s] otherwise.
    [load_state_value] gives the [i]-th character the position [after] the
    first [i] characters, starting from [Position(0, 0)]. *)
Theorem after_and_load_state_value :
  (forall (p : Position) (s : string),
     line (after p s) = (line p + count_newlines s)%Z
     /\ column (after p s) =
          (if has_newline s then Z.of_nat (String.length (after_last_newline s))
           else (column p + Z.of_nat (String.length s))%Z))
  /\ (forall s : string,
        length (values (load_state_value s)) = String.length s
        /\ (forall (i : nat) (c : ascii), String.get i s = Some c ->
              nth_error (values (load_state_value s)) i =
                Some (mkItem c (after (mkPosition 0 0) (substring 0 i s))))).
Proof.
  split.
  - intros p s. revert p. induction s as [|c s IH]; intros p.
    + destruct p; simpl. split; lia.
    + rewrite after_cons. destruct (IH (after p (String c EmptyString))) as [Hl Hc].
      rewrite Hl, Hc, after_single.
      cbn [count_newlines has_newline after_last_newline String.length].
      destruct (Ascii.eqb c "010"%char); cbn [line column orb];
        destruct (has_newline s); cbn [String.length]; split; lia.
  - intros s. split.
    + apply load_items_length.
    + intros i c H. apply load_items_nth. exact H.
Qed.

(** ** C1
    A lexer head rule applied to a non-empty character stream: when the
    head does not satisfy the rule the result is a core [Error], but when it
    does the rule reaches [StateValue.tail], which raises a host
    [AttributeError] ('_values') instead of returning the rest of the
    stream. *)
Theorem lexer_head_rule_match_raises_host
  (k : nat) (p : processor head_rule) (h : head_rule) (c : ascii)
  (pos : Position) (rest : list item) :
  Lexer.apply (S k) (HeadRule h)
    (mkState p (mkStream LexerStateValue (mkItem c pos :: rest))) =
  if pred h (mkItem c pos) then HostRaise (AttributeError "_values")
  else Raise (mkError None (Some (MsgFailedToMatchHead h (mkItem c pos))) []).
Proof. reflexivity. Qed.

(** ** C5
    A zero-width repetition under [UntilEmpty] over a non-empty lexer state:
    the guard sees that the state did not advance, but formatting the state
    into the non-advancement message goes through [StateValue.__repr__],
    which raises a host [AttributeError] ('_values') instead of the
    non-advancement [Error]. *)
Theorem until_empty_zero_width_lexer_raises_host
  (k : nat) (p : processor head_rule) :
  Lexer.apply (3 + k) (UntilEmpty (ZeroOrOne (HeadRule (Literal "b"))))
    (mkState p (load_state_value "a")) = HostRaise (AttributeError "_values").
Proof. reflexivity. Qed.

(** ** C6
    The spec's first end-to-end example: token rules [a -> 'a'] and
    [b -> 'c'+] are exhaustive over "acc", yet [Lexer.apply] does not return
    the tokens a:'a' and b:'cc' whose values concatenate to "acc": it raises
    a host [AttributeError] ('_values') at the first consumed character. *)
Theorem lexer_apply_example_raises_host (k : nat) :
  lexer_apply (5 + k)
    [("a", HeadRule (Literal "a")); ("b", OneOrMore (HeadRule (Literal "c")))]
    "acc" = HostRaise (AttributeError "_values").
Proof. reflexivity. Qed.

(** ** C7
    [Literal 'a'] in the lexer: on the empty state it raises the
    "stream empty" [Error]; on a state whose head is 'b' it raises an
    [Error] naming the rule and the item found; on a state whose head is 'a'
    it does not consume the item and return a leaf: it raises a host
    [AttributeError] ('_values'). *)
Theorem literal_cases (k : nat) (p : processor head_rule) :
  Lexer.apply (S k) (HeadRule (Literal "a")) (mkState p (load_state_value ""))
    = Raise (stream_empty_error item result_value head_rule)
  /\ Lexer.apply (S k) (HeadRule (Literal "a")) (mkState p (load_state_value "b"))
    = Raise (mkError None
               (Some (MsgFailedToMatchHead (Literal "a") (mkItem "b" (mkPosition 0 0))))
               [])
  /\ Lexer.apply (S k) (HeadRule (Literal "a")) (mkState p (load_state_value "a"))
    = HostRaise (AttributeError "_values").
Proof. split; [|split]; reflexivity. Qed.

(** ** C2 (counterexample)
    [And(Literal 'a', Literal 'b')] on "b": the first child fails, and the
    [And] raises that child's [Error] itself, with no children, rather than
    a new [Error] holding it as its single child. *)
Lemma and_failure_not_wrapped :
  ~ (exists e_and e_child : error,
        Lexer.apply 2 (And [HeadRule (Literal "a"); HeadRule (Literal "b")])
          (mkState (lexer_processor []) (load_state_value "b")) = Raise e_and
        /\ Lexer.apply 1 (HeadRule (Literal "a"))
             (mkState (lexer_processor []) (load_state_value "b")) = Raise e_child
        /\ err_children e_and = [e_child]).
Proof.
  intros [ea [ec [H1 [H2 H3]]]].
  vm_compute in H1, H2. injection H1 as <-. injection H2 as <-.
  discriminate H3.
Qed.

(** C2: [and_child_error_propagates] at a lexer [And] whose first child
    [ZeroOrOne('z')] succeeds without consuming "b" and whose second child
    [Literal 'a'] fails. *)
Lemma and_child_error_propagates_witness :
  Lexer.apply 3 (And [ZeroOrOne (HeadRule (Literal "z"))])
    (mkState (lexer_processor []) (load_state_value "b"))
  = Ok (mkResult None None [mkResult None None []],
        mkState (lexer_processor []) (load_state_value "b"))
  /\ Lexer.apply 2 (HeadRule (Literal "a"))
       (mkState (lexer_processor []) (load_state_value "b"))
     = Raise (mkError None
                (Some (MsgFailedToMatchHead (Literal "a") (mkItem "b" (mkPosition 0 0))))
                [])
  /\ Lexer.apply 3 (And [ZeroOrOne (HeadRule (Literal "z")); HeadRule (Literal "a")])
       (mkState (lexer_processor []) (load_state_value "b"))
     = Raise (mkError None
                (Some (MsgFailedToMatchHead (Literal "a") (mkItem "b" (mkPosition 0 0))))
                []).
Proof.
  assert (H1 : Lexer.apply 3 (And [ZeroOrOne (HeadRule (Literal "z"))])
    (mkState (lexer_processor []) (load_state_value "b"))
    = Ok (mkResult None None [mkResult None None []],
          mkState (lexer_processor []) (load_state_value "b"))) by reflexivity.
  assert (H2 : Lexer.apply 2 (HeadRule (Literal "a"))
       (mkState (lexer_processor []) (load_state_value "b"))
     = Raise (mkError None
                (Some (MsgFailedToMatchHead (Literal "a") (mkItem "b" (mkPosition 0 0))))
                [])) by reflexivity.
  split; [exact H1 | split; [exact H2 |]].
  exact (ProcessorFacts.and_child_error_propagates _ _ _ _ _ _ _ 2
           [ZeroOrOne (HeadRule (Literal "z"))] [] (HeadRule (Literal "a"))
           _ _ _ _ H1 H2).
Defined.

(** C3: [or_all_fail_errors] at [Or(Literal 'a', Literal 'b')] on "c". *)
Lemma or_all_fail_errors_witness :
  Forall2 (fun c e => Lexer.apply 1 c (mkState (lexer_processor []) (load_state_value "c")) = Raise e)
    [HeadRule (Literal "a"); HeadRule (Literal "b")]
    [mkError None (Some (MsgFailedToMatchHead (Literal "a") (mkItem "c" (mkPosition 0 0)))) [];
     mkError None (Some (MsgFailedToMatchHead (Literal "b") (mkItem "c" (mkPosition 0 0)))) []]
  /\ Lexer.apply 2 (Or [HeadRule (Literal "a"); HeadRule (Literal "b")])
       (mkState (lexer_processor []) (load_state_value "c"))
     = Raise (mkError None None
         [mkError None (Some (MsgFailedToMatchHead (Literal "a") (mkItem "c" (mkPosition 0 0)))) [];
          mkError None (Some (MsgFailedToMatchHead (Literal "b") (mkItem "c" (mkPosition 0 0)))) []]).
Proof.
  assert (H : Forall2 (fun c e => Lexer.apply 1 c (mkState (lexer_processor []) (load_state_value "c")) = Raise e)
    [HeadRule (Literal "a"); HeadRule (Literal "b")]
    [mkError None (Some (MsgFailedToMatchHead (Literal "a") (mkItem "c" (mkPosition 0 0)))) [];
     mkError None (Some (MsgFailedToMatchHead (Literal "b") (mkItem "c" (mkPosition 0 0)))) []]).
  { constructor; [reflexivity | constructor; [reflexivity | constructor]]. }
  split; [exact H |].
  exact (ProcessorFacts.or_all_fail_errors _ _ _ _ _ _ _ 1 _ _ _ H).
Defined.

(** C4: [or_first_success] at [Or(Literal 'a', ZeroOrOne('b'), Literal 'x')]
    on "x": the first child fails, the second succeeds without consuming,
    and the third, which would consume the 'x', is not tried. *)
Lemma or_first_success_witness :
  Forall2 (fun c e => Lexer.apply 2 c (mkState (lexer_processor []) (load_state_value "x")) = Raise e)
    [HeadRule (Literal "a")]
    [mkError None (Some (MsgFailedToMatchHead (Literal "a") (mkItem "x" (mkPosition 0 0)))) []]
  /\ Lexer.apply 2 (ZeroOrOne (HeadRule (Literal "b")))
       (mkState (lexer_processor []) (load_state_value "x"))
     = Ok (mkResult None None [], mkState (lexer_processor []) (load_state_value "x"))
  /\ Lexer.apply 3 (Or [HeadRule (Literal "a"); ZeroOrOne (HeadRule (Literal "b"));
                        HeadRule (Literal "x")])
       (mkState (lexer_processor []) (load_state_value "x"))
     = Ok (mkResult None None [mkResult None None []],
           mkState (lexer_processor []) (load_state_value "x")).
Proof.
  assert (H1 : Forall2 (fun c e => Lexer.apply 2 c (mkState (lexer_processor []) (load_state_value "x")) = Raise e)
    [HeadRule (Literal "a")]
    [mkError None (Some (MsgFailedToMatchHead (Literal "a") (mkItem "x" (mkPosition 0 0)))) []]).
  { constructor; [reflexivity | constructor]. }
  assert (H2 : Lexer.apply 2 (ZeroOrOne (HeadRule (Literal "b")))
       (mkState (lexer_processor []) (load_state_value "x"))
     = Ok (mkResult None None [], mkState (lexer_processor []) (load_state_value "x")))
    by reflexivity.
  split; [exact H1 | split; [exact H2 |]].
  exact (ProcessorFacts.or_first_success _ _ _ _ _ _ _ 2
           [HeadRule (Literal "a")] [HeadRule (Literal "x")] _ _ _ _ _ H1 H2).
Defined.

End LexerFacts.

(** * Properties of the loader *)
Module LoaderFacts.
Import Processor Lexer Loader.
Local Open Scope string_scope.

(** ** C9
    [load_parser("a -> b | c;")] does not yield a parser.  A program cannot
    even reach it: [from core import loader] imports [core/parser.py],
    whose class body evaluates [Lexer.Token], and [lexer.Lexer] has no
    attribute [Token], so the import raises [AttributeError] ('Token').
    The body of [load_parser] fails too: its first step [load_lexer] runs
    [load_lexer_rule], which references [parser.UntilEmpty] while building
    [lexer_parser], before anything is lexed, and [core/parser.py] defines
    no [UntilEmpty], so it raises [AttributeError] ('UntilEmpty').  Both
    hold whatever the rest of the two bodies does. *)
Theorem load_parser_example_raises_host (E P : Type)
  (error_with : string -> list E -> E)
  (load_lexer_rule_rest : processor head_rule -> string -> exc E Lexer.rule)
  (load_parser_rest : list (string * Lexer.rule) -> string -> exc E P) :
  run_load_parser E P error_with load_lexer_rule_rest load_parser_rest "a -> b | c;"
  = HostRaise (AttributeError "Token")
  /\ load_parser E P error_with load_lexer_rule_rest load_parser_rest "a -> b | c;"
  = HostRaise (AttributeError "UntilEmpty").
Proof. split; reflexivity. Qed.

End LoaderFacts.

(** * Further properties of the rule variants *)
Module RuleFacts.
Import Processor ProcessorFacts.

Section Rules.
Variables A V Hd : Type.
Variable A_eqb : A -> A -> bool.
Variable pred : Hd -> A -> bool.
Variable head_result : Hd -> A -> result V.
Variable not_value : A -> V.

Local Notation rule := (rule Hd).
Local Notation state := (state A Hd).
Local Notation error := (error A V Hd).
Local Notation outcome := (outcome A V Hd).
Local Notation apply := (apply A V Hd A_eqb pred head_result not_value).
Local Notation apply_rule_to_state :=
  (apply_rule_to_state A V Hd A_eqb pred head_result not_value).

(** The [while True] loop of [ZeroOrMore] and [OneOrMore] stops at the
    first [Error] of its child and never lets it out. *)
Lemma repeat_loop_no_raise (ap : rule -> state -> outcome) k c acc st e :
  repeat_loop A V Hd ap k c acc st <> Raise e.
Proof.
  revert acc st. induction k as [|k IH]; intros acc st; simpl; [discriminate|].
  destruct (ap c st) as [[r s]| | |]; try discriminate. apply IH.
Qed.

(** [and_loop] with results already collected: they go in front. *)
Definition prepend_results (acc : list (result V)) (o : outcome) : outcome :=
  match o with
  | Ok (r, s) => Ok (mkResult None None (acc ++ children r), s)
  | other => other
  end.

Lemma and_loop_acc (ap : rule -> state -> outcome) cs acc st :
  and_loop A V Hd ap cs acc st = prepend_results acc (and_loop A V Hd ap cs [] st).
Proof.
  revert acc st. induction cs as [|c cs IH]; intros acc st; simpl.
  - rewrite app_nil_r. reflexivity.
  - destruct (ap c st) as [[r s]| | |]; simpl; try reflexivity.
    rewrite (IH (acc ++ [r])), (IH [r]).
    destruct (and_loop A V Hd ap cs [] s) as [[r' s']| | |]; simpl; try reflexivity.
    rewrite <- app_assoc. reflexivity.
Qed.

(** The child [c] succeeds from [st] with the results [rs], one after the
    other, ending in [st']. *)
Inductive successes (ap : rule -> state -> outcome) (c : rule)
  : state -> list (result V) -> state -> Prop :=
| successes_nil st : successes ap c st [] st
| successes_cons st r st1 rs st' :
    ap c st = Ok (r, st1) -> successes ap c st1 rs st' ->
    successes ap c st (r :: rs) st'.

(** The [while True] loop, given enough iterations, runs the child through
    its successes and stops at its first [Error]. *)
Lemma repeat_loop_successes (ap : rule -> state -> outcome) c st rs st' e k acc :
  successes ap c st rs st' -> ap c st' = Raise e -> length rs < k ->
  repeat_loop A V Hd ap k c acc st = Ok (mkResult None None (acc ++ rs), st').
Proof.
  intros Hs. revert k acc.
  induction Hs as [st|st r st1 rs st' Hr Hs IH]; intros k acc He Hk.
  - destruct k as [|k]; [simpl in Hk; lia|]. simpl. rewrite He, app_nil_r. reflexivity.
  - destruct k as [|k]; [simpl in Hk; lia|]. simpl. rewrite Hr.
    rewrite (IH k (acc ++ [r]) He) by (simpl in Hk; lia).
    rewrite <- app_assoc. reflexivity.
Qed.

(** ** ZeroOrMore never fails with an [Error]
    Whatever its child and state, [ZeroOrMore.apply] never raises an
    [Error] itself.  It stops at the child's first [Error] and returns the
    results collected so far: if the child succeeds from [st] with results
    [rs] ending in [st'] and then raises an [Error] at [st'], [ZeroOrMore]
    returns [rs] and [st'] (given enough iterations). *)
Theorem zero_or_more_never_raises (n : nat) (c : rule) (st : state) :
  ResultQuery.raises_error (apply n (ZeroOrMore c) st) = false
  /\ (forall (rs : list (result V)) (st' : state) (e : error),
        successes (apply n) c st rs st' -> apply n c st' = Raise e ->
        length rs < n ->
        apply (S n) (ZeroOrMore c) st = Ok (mkResult None None rs, st')).
Proof.
  split.
  - destruct n as [|n]; simpl; [reflexivity|].
    destruct (repeat_loop A V Hd (apply n) n c [] st) eqn:E; try reflexivity.
    exfalso. exact (repeat_loop_no_raise _ _ _ _ _ _ E).
  - intros rs st' e Hs He Hk. simpl.
    exact (repeat_loop_successes _ _ _ _ _ _ _ [] Hs He Hk).
Qed.

(** ** ZeroOrOne
    [ZeroOrOne.apply] never raises an [Error]; when its child raises one,
    it succeeds with an empty result and the state it was given. *)
Theorem zero_or_one_never_raises (n : nat) (c : rule) (st : state) (e : error) :
  apply n (ZeroOrOne c) st <> Raise e
  /\ (apply n c st = Raise e ->
      apply (S n) (ZeroOrOne c) st = Ok (mkResult None None [], st)).
Proof.
  split.
  - destruct n as [|n]; simpl; [discriminate|]. unfold zero_or_one_apply.
    destruct (apply n c st) as [[r s]| | |]; simpl; discriminate.
  - intros H. simpl. unfold zero_or_one_apply. rewrite H. reflexivity.
Qed.

(** ** OneOrMore
    [OneOrMore.apply] raises an [Error] exactly when the first application
    of its child does, and then it is that same [Error]: the later
    repetitions never make it fail. *)
Theorem one_or_more_fails_iff_first (n : nat) (c : rule) (st : state) (e : error) :
  apply (S n) (OneOrMore c) st = Raise e <-> apply n c st = Raise e.
Proof.
  simpl. split.
  - destruct (apply n c st) as [[r s]| e' | |]; simpl; intros H; try discriminate.
    + exfalso. exact (repeat_loop_no_raise _ _ _ _ _ _ H).
    + exact H.
  - intros H. rewrite H. reflexivity.
Qed.

(** ** And composes
    If [And(xs)] succeeds from [st] with results [rs1] ending in [st1], and
    [And(ys)] succeeds from [st1] with results [rs2] ending in [st2], then
    [And(xs + ys)] succeeds from [st] with results [rs1 + rs2] ending in
    [st2]. *)
Theorem and_compose (n : nat) (xs ys : list rule) (st st1 st2 : state)
  (rs1 rs2 : list (result V)) :
  apply (S n) (And xs) st = Ok (mkResult None None rs1, st1) ->
  apply (S n) (And ys) st1 = Ok (mkResult None None rs2, st2) ->
  apply (S n) (And (xs ++ ys)) st = Ok (mkResult None None (rs1 ++ rs2), st2).
Proof.
  simpl. unfold and_apply. intros H1 H2.
  destruct (and_loop_app A V Hd (apply n) xs ys [] st _ _ H1) as [acc' [Hr ->]].
  injection Hr as ->. rewrite and_loop_acc, H2. reflexivity.
Qed.

(** [UntilEmpty]'s loop only stops normally on an empty state. *)
Lemma until_empty_loop_ends_empty (ap : rule -> state -> outcome) k self c acc st
  res st' :
  until_empty_loop A V Hd A_eqb ap k self c acc st = Ok (res, st') ->
  empty A (sv st') = true.
Proof.
  revert acc st. induction k as [|k IH]; intros acc st H; simpl in H;
    destruct (empty A (sv st)) eqn:Ee; try (injection H as _ <-; exact Ee);
    try discriminate.
  destruct (ap c st) as [[r1 s1]| | |]; simpl in H; try discriminate.
  destruct (state_eqb A Hd A_eqb st s1).
  - destruct (repr_state A V Hd st); discriminate.
  - exact (IH _ _ H).
Qed.

(** ** UntilEmpty
    [UntilEmpty.apply] on an empty state succeeds at once with no results
    and the same state; and whenever it succeeds, the state it returns is
    empty. *)
Theorem until_empty_ends_empty (n : nat) (c : rule) (st : state) :
  (empty A (sv st) = true ->
   apply (S n) (UntilEmpty c) st = Ok (mkResult None None [], st))
  /\ (forall res st', apply n (UntilEmpty c) st = Ok (res, st') ->
                      empty A (sv st') = true).
Proof.
  split.
  - intros He. simpl. destruct n; simpl; rewrite He; reflexivity.
  - intros res st' H. destruct n as [|n]; [discriminate H|].
    exact (until_empty_loop_ends_empty _ _ _ _ _ _ _ _ H).
Qed.

(** ** Every rule keeps the processor
    Whatever the rule, a successful application returns a state bound to
    the processor of the state it was given. *)
Theorem apply_same_processor (fuel : nat) (r : rule) (st st' : state) (res : result V) :
  apply fuel r st = Ok (res, st') -> proc st' = proc st.
Proof. apply apply_keeps_processor. Qed.

(** On a plain stream, the repetition loop over a [HeadRule] takes the
    longest prefix of items the rule accepts. *)
Lemma repeat_head_plain (m : nat) (h : Hd) (p : processor Hd) (xs : list A)
  (k : nat) (acc : list (result V)) :
  length xs < k ->
  repeat_loop A V Hd (apply (S m)) k (HeadRule h) acc (mkState p (mkStream StreamClass xs)) =
    Ok (mkResult None None (acc ++ map (head_result h) (ResultQuery.take_while (pred h) xs)),
        mkState p (mkStream StreamClass (ResultQuery.drop_while (pred h) xs))).
Proof.
  revert k acc. induction xs as [|x xs IH]; intros k acc Hk;
    (destruct k as [|k]; [simpl in Hk; lia|]); cbn [repeat_loop];
    rewrite (head_rule_plain_stream A V Hd A_eqb pred head_result not_value) by reflexivity;
    cbn [values sv].
  - rewrite app_nil_r. reflexivity.
  - cbn [ResultQuery.take_while ResultQuery.drop_while].
    destruct (pred h x).
    + rewrite IH by (simpl in Hk; lia). rewrite <- app_assoc. reflexivity.
    + rewrite app_nil_r. reflexivity.
Qed.

(** ** ZeroOrMore and OneOrMore are greedy
    On a plain [Stream], [ZeroOrMore(h)] for a head rule [h] consumes the
    longest prefix of items [h] accepts, with one result per item.
    [OneOrMore(h)] does the same when [h] accepts the first item, and
    otherwise raises the error of that first attempt ("stream empty", or
    [h] failing to match the head). *)
Theorem repetition_greedy_plain (n : nat) (h : Hd) (p : processor Hd) (xs : list A) :
  length xs < n ->
  apply (S n) (ZeroOrMore (HeadRule h)) (mkState p (mkStream StreamClass xs)) =
    Ok (mkResult None None (map (head_result h) (ResultQuery.take_while (pred h) xs)),
        mkState p (mkStream StreamClass (ResultQuery.drop_while (pred h) xs)))
  /\ apply (S n) (OneOrMore (HeadRule h)) (mkState p (mkStream StreamClass xs)) =
    match xs with
    | [] => Raise (stream_empty_error A V Hd)
    | x :: _ =>
        if pred h x
        then Ok (mkResult None None (map (head_result h) (ResultQuery.take_while (pred h) xs)),
                 mkState p (mkStream StreamClass (ResultQuery.drop_while (pred h) xs)))
        else Raise (mkError None (Some (MsgFailedToMatchHead h x)) [])
    end.
Proof.
  intros Hn. destruct n as [|m]; [simpl in Hn; lia|]. split.
  - change (apply (S (S m)) (ZeroOrMore (HeadRule h)) (mkState p (mkStream StreamClass xs)))
      with (repeat_loop A V Hd (apply (S m)) (S m) (HeadRule h) [] (mkState p (mkStream StreamClass xs))).
    apply repeat_head_plain. exact Hn.
  - change (apply (S (S m)) (OneOrMore (HeadRule h)) (mkState p (mkStream StreamClass xs)))
      with (let* rs := apply (S m) (HeadRule h) (mkState p (mkStream StreamClass xs)) in
            repeat_loop A V Hd (apply (S m)) (S m) (HeadRule h) [fst rs] (snd rs)).
    rewrite (head_rule_plain_stream A V Hd A_eqb pred head_result not_value) by reflexivity.
    cbn [values sv]. destruct xs as [|x xs]; [reflexivity|].
    cbn [ResultQuery.take_while ResultQuery.drop_while].
    destruct (pred h x) eqn:Ep; [|reflexivity].
    cbn [bind fst snd]. unfold with_value. cbn [proc]. rewrite repeat_head_plain by (simpl in Hn; lia).
    reflexivity.
Qed.

(** Streams of different lengths are never equal. *)
Lemma stream_eqb_length (s1 s2 : stream A) :
  length (values s1) <> length (values s2) -> stream_eqb A A_eqb s1 s2 = false.
Proof.
  destruct s1 as [c1 l1], s2 as [c2 l2]. unfold stream_eqb. cbn [cls values].
  intros Hl. destruct c1, c2; try reflexivity;
    (revert l2 Hl; induction l1 as [|x l1 IH]; intros [|y l2] Hl; simpl in *;
       [lia | reflexivity | reflexivity | rewrite IH by lia; apply andb_false_r]).
Qed.

Lemma until_empty_head_loop (m : nat) (self : rule) (h : Hd) (p : processor Hd)
  (xs : list A) (k : nat) (acc : list (result V)) :
  length xs <= k ->
  until_empty_loop A V Hd A_eqb (apply (S m)) k self (HeadRule h) acc
    (mkState p (mkStream StreamClass xs)) =
    match ResultQuery.drop_while (pred h) xs with
    | [] => Ok (mkResult None None (acc ++ map (head_result h) xs),
                mkState p (mkStream StreamClass []))
    | x :: _ => Raise (mkError None (Some (MsgFailedToMatchHead h x)) [])
    end.
Proof.
  revert k acc. induction xs as [|x xs IH]; intros k acc Hk.
  - destruct k; simpl; rewrite app_nil_r; reflexivity.
  - destruct k as [|k]; [simpl in Hk; lia|]. cbn [until_empty_loop empty sv values].
    rewrite (head_rule_plain_stream A V Hd A_eqb pred head_result not_value) by reflexivity.
    cbn [values sv ResultQuery.drop_while]. destruct (pred h x); [|reflexivity].
    cbn [bind fst snd]. unfold with_value, state_eqb. cbn [proc sv].
    rewrite stream_eqb_length by (simpl; lia).
    rewrite IH by (simpl in Hk; lia). rewrite <- app_assoc. reflexivity.
Qed.

(** ** UntilEmpty over a head rule
    On a plain [Stream], [UntilEmpty(h)] for a head rule [h] either
    consumes the whole stream, with one result per item, when [h] accepts
    every item; or raises [h]'s failure to match at the first item it
    rejects. *)
Theorem until_empty_head_plain (n : nat) (h : Hd) (p : processor Hd) (xs : list A) :
  length xs < n ->
  apply (S n) (UntilEmpty (HeadRule h)) (mkState p (mkStream StreamClass xs)) =
    match ResultQuery.drop_while (pred h) xs with
    | [] => Ok (mkResult None None (map (head_result h) xs),
                mkState p (mkStream StreamClass []))
    | x :: _ => Raise (mkError None (Some (MsgFailedToMatchHead h x)) [])
    end.
Proof.
  intros Hn. destruct n as [|m]; [simpl in Hn; lia|].
  change (apply (S (S m)) (UntilEmpty (HeadRule h)) (mkState p (mkStream StreamClass xs)))
    with (until_empty_loop A V Hd A_eqb (apply (S m)) (S m) (UntilEmpty (HeadRule h))
            (HeadRule h) [] (mkState p (mkStream StreamClass xs))).
  apply until_empty_head_loop. lia.
Qed.

(** On a [lexer.StateValue] no rule moves: every state a successful
    application returns carries the stream it was given. *)
Definition keeps_lexer_stream (ap : rule -> state -> outcome) : Prop :=
  forall r st res st', cls (sv st) = LexerStateValue ->
    ap r st = Ok (res, st') -> sv st' = sv st.

Lemma head_rule_apply_lexer_no_ok (h : Hd) (st : state) x :
  cls (sv st) = LexerStateValue ->
  head_rule_apply A V Hd pred head_result h st <> Ok x.
Proof.
  intros Hc. unfold head_rule_apply, head, tail. rewrite Hc.
  destruct (values (sv st)); simpl; [discriminate|].
  destruct (pred h a); discriminate.
Qed.

Section LexerLoops.
Variable ap : rule -> state -> outcome.
Hypothesis Hap : keeps_lexer_stream ap.

Lemma and_loop_lexer cs acc st res st' :
  cls (sv st) = LexerStateValue ->
  and_loop A V Hd ap cs acc st = Ok (res, st') -> sv st' = sv st.
Proof.
  revert acc st. induction cs as [|c cs IH]; intros acc st Hc H; simpl in H.
  - injection H as _ <-. reflexivity.
  - destruct (ap c st) as [[r1 s1]| | |] eqn:E; simpl in H; try discriminate.
    pose proof (Hap _ _ _ _ Hc E) as Hs. rewrite <- Hs.
    apply (IH _ _ (eq_trans (f_equal cls Hs) Hc) H).
Qed.

Lemma or_loop_lexer cs errs st res st' :
  cls (sv st) = LexerStateValue ->
  or_loop A V Hd ap cs errs st = Ok (res, st') -> sv st' = sv st.
Proof.
  revert errs. induction cs as [|c cs IH]; intros errs Hc H; simpl in H; [discriminate|].
  destruct (ap c st) as [[r1 s1]| | |] eqn:E; try discriminate.
  - injection H as _ <-. exact (Hap _ _ _ _ Hc E).
  - exact (IH _ Hc H).
Qed.

Lemma repeat_loop_lexer k c acc st res st' :
  cls (sv st) = LexerStateValue ->
  repeat_loop A V Hd ap k c acc st = Ok (res, st') -> sv st' = sv st.
Proof.
  revert acc st. induction k as [|k IH]; intros acc st Hc H; simpl in H; [discriminate|].
  destruct (ap c st) as [[r1 s1]| | |] eqn:E; try discriminate.
  - pose proof (Hap _ _ _ _ Hc E) as Hs. rewrite <- Hs.
    apply (IH _ _ (eq_trans (f_equal cls Hs) Hc) H).
  - injection H as _ <-. reflexivity.
Qed.

Lemma until_empty_loop_lexer k self c acc st res st' :
  cls (sv st) = LexerStateValue ->
  until_empty_loop A V Hd A_eqb ap k self c acc st = Ok (res, st') -> sv st' = sv st.
Proof.
  revert acc st. induction k as [|k IH]; intros acc st Hc H; simpl in H;
    destruct (empty A (sv st)); try (injection H as _ <-; reflexivity); try discriminate.
  destruct (ap c st) as [[r1 s1]| | |] eqn:E; simpl in H; try discriminate.
  destruct (state_eqb A Hd A_eqb st s1).
  - destruct (repr_state A V Hd st); discriminate.
  - pose proof (Hap _ _ _ _ Hc E) as Hs. rewrite <- Hs.
    apply (IH _ _ (eq_trans (f_equal cls Hs) Hc) H).
Qed.

End LexerLoops.

Lemma apply_keeps_lexer_stream (fuel : nat) : keeps_lexer_stream (apply fuel).
Proof.
  induction fuel as [|n IH]; intros r st res st' Hc H; simpl in H; [discriminate|].
  destruct r as [h|name|cs|cs|c|c|c|c|c].
  - exfalso. exact (head_rule_apply_lexer_no_ok _ _ _ Hc H).
  - unfold ref_apply, apply_rule_with in H.
    destruct (lookup name (rules (proc st))); simpl in H; try discriminate.
    destruct (apply n r st) as [[r1 s1]| | |] eqn:E; simpl in H; try discriminate.
    injection H as _ <-. exact (IH _ _ _ _ Hc E).
  - exact (and_loop_lexer _ IH _ _ _ _ _ Hc H).
  - exact (or_loop_lexer _ IH _ _ _ _ _ Hc H).
  - exact (repeat_loop_lexer _ IH _ _ _ _ _ _ Hc H).
  - destruct (apply n c st) as [[r1 s1]| | |] eqn:E; simpl in H; try discriminate.
    pose proof (IH _ _ _ _ Hc E) as Hs. rewrite <- Hs.
    apply (repeat_loop_lexer _ IH _ _ _ _ _ _ (eq_trans (f_equal cls Hs) Hc) H).
  - unfold zero_or_one_apply in H.
    destruct (apply n c st) as [[r1 s1]| | |] eqn:E; simpl in H; try discriminate.
    + injection H as _ <-. exact (IH _ _ _ _ Hc E).
    + injection H as _ <-. reflexivity.
  - exact (until_empty_loop_lexer _ IH _ _ _ _ _ _ _ Hc H).
  - unfold not_apply in H. destruct (empty A (sv st)) eqn:Ee; try discriminate.
    destruct (apply n c st) as [[r1 s1]| | |] eqn:E; simpl in H; try discriminate.
    + destruct (repr_state A V Hd s1); discriminate.
    + unfold head, tail in H. rewrite Hc in H.
      destruct (values (sv st)); simpl in H; discriminate.
Qed.

End Rules.
End RuleFacts.

(** * Further properties of the lexer *)
Module LexerExtra.
Import Processor Lexer ResultQuery RuleFacts.
Local Open Scope string_scope.

Lemma lookup_dict_set_same {X} (k : string) (x : X) (d : list (string * X)) :
  lookup k (dict_set k x d) = Some x.
Proof.
  induction d as [|[k' x'] d IH]; simpl.
  - rewrite String.eqb_refl. reflexivity.
  - destruct (String.eqb k k') eqn:E; simpl.
    + rewrite E. reflexivity.
    + rewrite E. exact IH.
Qed.

Lemma lookup_dict_set_other {X} (k k' : string) (x : X) (d : list (string * X)) :
  String.eqb k' k = false -> lookup k' (dict_set k x d) = lookup k' d.
Proof.
  intros Hne. induction d as [|[k0 x0] d IH]; simpl.
  - rewrite Hne. reflexivity.
  - destruct (String.eqb k k0) eqn:E; simpl.
    + apply String.eqb_eq in E. subst k0. rewrite Hne. reflexivity.
    + rewrite IH. reflexivity.
Qed.

Lemma lookup_root (token_rules : list (string * rule)) :
  lookup ROOT_RULE_NAME (rules (lexer_processor token_rules)) =
    Some (UntilEmpty (Ref RULES_RULE_NAME)).
Proof.
  simpl. rewrite lookup_dict_set_other by reflexivity. apply lookup_dict_set_same.
Qed.

Lemma item_eqb_refl (x : item) : item_eqb x x = true.
Proof.
  destruct x as [c [l k]]. unfold item_eqb. simpl.
  rewrite Ascii.eqb_refl, !Z.eqb_refl. reflexivity.
Qed.

Lemma lexer_state_eqb_refl (p : processor head_rule) (xs : list item) :
  state_eqb item head_rule item_eqb (mkState p (mkStream LexerStateValue xs))
    (mkState p (mkStream LexerStateValue xs)) = true.
Proof.
  unfold state_eqb, stream_eqb. simpl.
  induction xs as [|x xs IH]; simpl; [reflexivity|]. rewrite item_eqb_refl. exact IH.
Qed.

(** On a lexer state a successful rule returns the state it was given. *)
Lemma lexer_apply_same_state (fuel : nat) (r : rule) (p : processor head_rule)
  (xs : list item) (res : result) (st' : state) :
  Lexer.apply fuel r (mkState p (mkStream LexerStateValue xs)) = Ok (res, st') ->
  st' = mkState p (mkStream LexerStateValue xs).
Proof.
  intros H.
  pose proof (apply_keeps_lexer_stream _ _ _ _ _ _ _ _ _ _ _ _
    (eq_refl : cls (sv (mkState p (mkStream LexerStateValue xs))) = LexerStateValue) H) as Hs.
  pose proof (ProcessorFacts.apply_keeps_processor _ _ _ _ _ _ _ _ _ _ _ _ H) as Hp.
  destruct st' as [p' s']. simpl in Hs, Hp. subst. reflexivity.
Qed.

(** On a non-empty lexer state, [UntilEmpty] never succeeds: the first
    repetition either fails or leaves the state as it was, and formatting
    that state for the non-advancement error raises. *)
Lemma until_empty_lexer_no_ok (n : nat) (c : rule) (p : processor head_rule)
  (x : item) (xs : list item) res :
  Lexer.apply n (UntilEmpty c) (mkState p (mkStream LexerStateValue (x :: xs))) <> Ok res.
Proof.
  destruct n as [|n]; [discriminate|]. destruct n as [|n]; [discriminate|].
  change (Lexer.apply (S (S n)) (UntilEmpty c) (mkState p (mkStream LexerStateValue (x :: xs))))
    with (until_empty_loop item result_value head_rule item_eqb (Lexer.apply (S n)) (S n)
            (UntilEmpty c) c [] (mkState p (mkStream LexerStateValue (x :: xs)))).
  cbn [until_empty_loop empty sv values].
  destruct (Lexer.apply (S n) c (mkState p (mkStream LexerStateValue (x :: xs))))
    as [[r1 s1]| | |] eqn:E; simpl; try discriminate.
  rewrite (lexer_apply_same_state _ _ _ _ _ _ E).
  rewrite lexer_state_eqb_refl. simpl. discriminate.
Qed.

Lemma root_not_token_type (p : processor head_rule) :
  existsb (String.eqb ROOT_RULE_NAME) (token_types p) = false.
Proof.
  unfold token_types. induction (rules p) as [|[k r] d IH]; [reflexivity|].
  cbn [filter fst]. destruct (String.eqb k ROOT_RULE_NAME) eqn:E; cbn [orb negb].
  - exact IH.
  - destruct (String.eqb k RULES_RULE_NAME); cbn [negb]; [exact IH|].
    cbn [map existsb fst]. rewrite String.eqb_sym, E. exact IH.
Qed.

Lemma token_names_dict_set (k : string) {X} (x : X) (d : list (string * X)) :
  String.eqb k ROOT_RULE_NAME || String.eqb k RULES_RULE_NAME = true ->
  map fst (filter (fun kv => negb (String.eqb (fst kv) ROOT_RULE_NAME
                                   || String.eqb (fst kv) RULES_RULE_NAME))
              (dict_set k x d))
  = map fst (filter (fun kv => negb (String.eqb (fst kv) ROOT_RULE_NAME
                                     || String.eqb (fst kv) RULES_RULE_NAME)) d).
Proof.
  intros Hk. induction d as [|[k' x'] d IH]; simpl.
  - rewrite Hk. reflexivity.
  - destruct (String.eqb k k') eqn:E; simpl.
    + apply String.eqb_eq in E. subst k'. rewrite Hk. reflexivity.
    + destruct (negb _); simpl; rewrite IH; reflexivity.
Qed.

Lemma filter_map_fst {X} (P : string -> bool) (d : list (string * X)) :
  map fst (filter (fun kv => P (fst kv)) d) = filter P (map fst d).
Proof.
  induction d as [|[k x] d IH]; simpl; [reflexivity|].
  destruct (P k); simpl; rewrite IH; reflexivity.
Qed.

(** A nested induction principle for results. *)
Lemma result_nested_ind {W} (P : Processor.result W -> Prop)
  (f : forall n v cs, Forall P cs -> P (mkResult n v cs)) : forall r, P r.
Proof.
  fix IH 1. intros [n v cs]. apply f.
  exact ((fix go (l : list (Processor.result W)) : Forall P l :=
            match l with
            | [] => Forall_nil P
            | c :: l' => @Forall_cons _ P c l' (IH c) (go l')
            end) cs).
Qed.

Lemma where_children_match {W} (pr : Processor.result W -> bool) (r : Processor.result W) :
  Forall (fun x => pr x = true) (children (where_ pr r)).
Proof.
  induction r as [n v cs Hcs] using result_nested_ind. simpl.
  destruct (pr (mkResult n v cs)) eqn:E; simpl; [constructor; [exact E | constructor]|].
  clear E. induction Hcs as [|c cs Hc Hcs IHcs]; simpl; [constructor|].
  apply Forall_app. split; assumption.
Qed.

Lemma after_loop_app (s1 s2 : string) (l c : Z) :
  after_loop (String.append s1 s2) l c =
    after_loop s2 (line (after_loop s1 l c)) (column (after_loop s1 l c)).
Proof.
  revert l c. induction s1 as [|x s1 IH]; intros l c; simpl; [reflexivity|].
  destruct (Ascii.eqb x "010"%char); apply IH.
Qed.

Lemma token_stream_of_empty_root (p : processor head_rule) :
  token_stream_from_result p (mkResult (Some ROOT_RULE_NAME) None []) = [].
Proof.
  unfold token_stream_from_result. cbn [where_]. unfold rule_name_in. cbn [rule_name].
  rewrite root_not_token_type. reflexivity.
Qed.

(** ** Position.after composes
    Moving a position past [s1 + s2] is moving it past [s1], then past
    [s2]. *)
Theorem after_append (p : Position) (s1 s2 : string) :
  after p (String.append s1 s2) = after (after p s1) s2.
Proof. unfold after. apply after_loop_app. Qed.

(** ** Lexer rules never advance
    Applied to a lexer state built by [load_state_value], a rule that
    succeeds returns that same state: [StateValue.tail] raises before any
    item is consumed, so no rule ever moves past an item. *)
Theorem lexer_rule_never_advances (fuel : nat) (r : rule) (p : processor head_rule)
  (s : string) (res : result) (st' : state) :
  Lexer.apply fuel r (mkState p (load_state_value s)) = Ok (res, st') ->
  st' = mkState p (load_state_value s).
Proof.
  apply lexer_apply_same_state.
Qed.

(** ** Not in the lexer
    [Not(c)] never succeeds on a lexer state.  On the empty state it raises
    "state empty".  On a non-empty state: if [c] succeeds, formatting its
    state for the "child applied" error raises [AttributeError]
    ('_values'); if [c] fails with an [Error], taking the tail raises that
    same [AttributeError]. *)
Theorem lexer_not_never_succeeds (fuel : nat) (c : rule) (p : processor head_rule)
  (s : string) :
  succeeds (Lexer.apply fuel (Not c) (mkState p (load_state_value s))) = false
  /\ Lexer.apply (S fuel) (Not c) (mkState p (load_state_value ""))
     = Raise (mkError None (Some (MsgText "state empty")) [])
  /\ (forall (a : ascii) (s' : string) (res : result) (st' : state),
        Lexer.apply fuel c (mkState p (load_state_value (String a s'))) = Ok (res, st') ->
        Lexer.apply (S fuel) (Not c) (mkState p (load_state_value (String a s')))
        = HostRaise (AttributeError "_values"))
  /\ (forall (a : ascii) (s' : string) (e : error),
        Lexer.apply fuel c (mkState p (load_state_value (String a s'))) = Raise e ->
        Lexer.apply (S fuel) (Not c) (mkState p (load_state_value (String a s')))
        = HostRaise (AttributeError "_values")).
Proof.
  split; [|split; [reflexivity|split]].
  - destruct fuel as [|n]; [reflexivity|].
    change (Lexer.apply (S n) (Not c) (mkState p (load_state_value s))) with
      (not_apply item result_value head_rule not_value (Lexer.apply n) c
         (mkState p (load_state_value s))).
    unfold not_apply. destruct s as [|a s]; [reflexivity|].
    cbn [empty sv load_state_value load_items values].
    destruct (Lexer.apply n c (mkState p (load_state_value (String a s))))
      as [[r1 s1]| | |] eqn:E; try reflexivity.
    rewrite (lexer_apply_same_state _ _ _ _ _ _ E). reflexivity.
  - intros a s' res st' H.
    change (Lexer.apply (S fuel) (Not c) (mkState p (load_state_value (String a s')))) with
      (not_apply item result_value head_rule not_value (Lexer.apply fuel) c
         (mkState p (load_state_value (String a s')))).
    unfold not_apply. cbn [empty sv load_state_value load_items values].
    rewrite H, (lexer_apply_same_state _ _ _ _ _ _ H). reflexivity.
  - intros a s' e H.
    change (Lexer.apply (S fuel) (Not c) (mkState p (load_state_value (String a s')))) with
      (not_apply item result_value head_rule not_value (Lexer.apply fuel) c
         (mkState p (load_state_value (String a s')))).
    unfold not_apply. cbn [empty sv load_state_value load_items values].
    rewrite H. reflexivity.
Qed.

(** ** The lexer yields no tokens for a non-empty input
    Whatever the token rules and however long it runs, [Lexer.apply] on a
    non-empty input never returns a token stream: its root [UntilEmpty]
    cannot advance over a lexer state. *)
Theorem lexer_apply_nonempty_no_tokens (fuel : nat) (token_rules : list (string * rule))
  (c : ascii) (s : string) :
  succeeds (lexer_apply fuel token_rules (String c s)) = false.
Proof.
  unfold lexer_apply, Lexer.apply_root, Processor.apply_root, Processor.apply_rule,
    Processor.apply_rule_to_state, apply_rule_with.
  change (root_rule_name (lexer_processor token_rules)) with ROOT_RULE_NAME.
  cbn [proc]. rewrite lookup_root.
  destruct (Processor.apply item result_value head_rule item_eqb pred head_result not_value
              fuel (UntilEmpty (Ref RULES_RULE_NAME))
              (mkState (lexer_processor token_rules) (load_state_value (String c s))))
    as [[r1 s1]| | |] eqn:E; try reflexivity.
  exfalso. exact (until_empty_lexer_no_ok _ _ _ _ _ _ E).
Qed.

(** ** The lexer on the empty input
    For any token rules, [Lexer.apply("")] returns the empty token
    stream. *)
Theorem lexer_apply_empty_input (n : nat) (token_rules : list (string * rule)) :
  lexer_apply (S n) token_rules "" = Ok [].
Proof.
  unfold lexer_apply, Lexer.apply_root, Processor.apply_root, Processor.apply_rule,
    Processor.apply_rule_to_state, apply_rule_with.
  change (root_rule_name (lexer_processor token_rules)) with ROOT_RULE_NAME.
  cbn [proc]. rewrite lookup_root.
  replace (Processor.apply item result_value head_rule item_eqb pred head_result not_value
              (S n) (UntilEmpty (Ref RULES_RULE_NAME))
              (mkState (lexer_processor token_rules) (load_state_value "")))
    with (Ok (E := error) (T := result * state)
            (mkResult None None [], mkState (lexer_processor token_rules) (load_state_value "")))
    by (destruct n; reflexivity).
  cbn [bind fst]. unfold with_rule_name. cbn [value children].
  rewrite token_stream_of_empty_root. reflexivity.
Qed.

(** ** The lexer's registry
    [Lexer(rules)]: its token types are the names of [rules] other than
    [_root] and [_rules], in order; [_root] is [UntilEmpty(Ref(_rules))];
    [_rules] is the [Or] of a [Ref] to each name of [rules], in order; and
    every other name maps to the rule [rules] gives it. *)
Theorem lexer_processor_registry (token_rules : list (string * rule)) :
  token_types (lexer_processor token_rules) =
    filter (fun k => negb (String.eqb k ROOT_RULE_NAME || String.eqb k RULES_RULE_NAME))
      (map fst token_rules)
  /\ lookup ROOT_RULE_NAME (rules (lexer_processor token_rules)) =
       Some (UntilEmpty (Ref RULES_RULE_NAME))
  /\ lookup RULES_RULE_NAME (rules (lexer_processor token_rules)) =
       Some (Or (map (fun kv => Ref (fst kv)) token_rules))
  /\ (forall k, String.eqb k ROOT_RULE_NAME = false -> String.eqb k RULES_RULE_NAME = false ->
        lookup k (rules (lexer_processor token_rules)) = lookup k token_rules).
Proof.
  split; [|split; [apply lookup_root | split]].
  - unfold token_types, lexer_processor. cbn [rules].
    rewrite token_names_dict_set by reflexivity.
    rewrite token_names_dict_set by reflexivity.
    apply (filter_map_fst (fun k => negb (String.eqb k ROOT_RULE_NAME
                                          || String.eqb k RULES_RULE_NAME))).
  - apply lookup_dict_set_same.
  - intros k H1 H2. unfold lexer_processor. cbn [rules].
    rewrite !lookup_dict_set_other by assumption. reflexivity.
Qed.

(** ** Tokens emitted by the lexer
    Every token [Lexer._token_stream_from_result] emits, from any result,
    has one of the lexer's token types, and none of them starts with
    '_'. *)
Theorem token_stream_types (p : processor head_rule) (r : result) :
  Forall (fun t => In (type t) (token_types p) /\ starts_with_underscore (type t) = false)
    (token_stream_from_result p r).
Proof.
  unfold token_stream_from_result. apply Forall_forall. intros t Ht.
  apply filter_In in Ht as [Hin Hneg]. split; [|destruct (starts_with_underscore (type t)); easy].
  apply in_map_iff in Hin as [x [<- Hx]].
  pose proof (proj1 (Forall_forall _ _) (where_children_match _ r) x Hx) as Hm.
  unfold rule_name_in in Hm. unfold token_from_result. cbn [type].
  destruct (rule_name x) as [nm|]; [|discriminate].
  apply existsb_exists in Hm as [nm' [Hin' Heq]]. apply String.eqb_eq in Heq. subst.
  exact Hin'.
Qed.

(** ** Result.where and Result.where_one
    Every result [where] returns satisfies the predicate, and a result
    that satisfies it is returned alone, without looking below it.
    [where_one] returns the single result [where] finds, and raises the
    count-mismatch [Error] (expected 1, with the number found) when [where]
    does not find exactly one. *)
Theorem where_and_where_one {W} (pr : Processor.result W -> bool) (r : Processor.result W) :
  Forall (fun x => pr x = true) (children (where_ pr r))
  /\ (pr r = true -> where_ pr r = mkResult None None [r])
  /\ (forall x, where_one pr r = Ok x -> children (where_ pr r) = [x] /\ pr x = true)
  /\ (length (children (where_ pr r)) <> 1 ->
      where_one pr r = Raise (ResultCountMismatch 1 (length (children (where_ pr r)))
                                (where_ pr r) r)).
Proof.
  pose proof (where_children_match pr r) as Hall.
  split; [exact Hall|split; [|split]].
  - intros H. destruct r as [n v cs]. simpl. rewrite H. reflexivity.
  - intros x H. unfold where_one, where_n in H.
    destruct (children (where_ pr r)) as [|y [|z l]] eqn:E; simpl in H; try discriminate H.
    rewrite E in H. injection H as <-. split; [reflexivity|]. inversion Hall; assumption.
  - intros H. unfold where_one, where_n.
    apply Nat.eqb_neq in H. rewrite H. reflexivity.
Qed.

End LexerExtra.

(** * Instances of the properties above *)
Module ExtraWitnesses.
Import Processor Lexer ResultQuery.
Local Open Scope string_scope.

(** [and_compose] on "b" with two [ZeroOrOne] children that do not
    consume. *)
Lemma and_compose_witness :
  Lexer.apply 3 (And [ZeroOrOne (HeadRule (Literal "z"))])
    (mkState (lexer_processor []) (load_state_value "b"))
  = Ok (mkResult None None [mkResult None None []],
        mkState (lexer_processor []) (load_state_value "b"))
  /\ Lexer.apply 3 (And [ZeroOrOne (HeadRule (Literal "y"))])
    (mkState (lexer_processor []) (load_state_value "b"))
  = Ok (mkResult None None [mkResult None None []],
        mkState (lexer_processor []) (load_state_value "b"))
  /\ Lexer.apply 3 (And [ZeroOrOne (HeadRule (Literal "z")); ZeroOrOne (HeadRule (Literal "y"))])
    (mkState (lexer_processor []) (load_state_value "b"))
  = Ok (mkResult None None [mkResult None None []; mkResult None None []],
        mkState (lexer_processor []) (load_state_value "b")).
Proof.
  assert (H1 : Lexer.apply 3 (And [ZeroOrOne (HeadRule (Literal "z"))])
    (mkState (lexer_processor []) (load_state_value "b"))
    = Ok (mkResult None None [mkResult None None []],
          mkState (lexer_processor []) (load_state_value "b"))) by reflexivity.
  assert (H2 : Lexer.apply 3 (And [ZeroOrOne (HeadRule (Literal "y"))])
    (mkState (lexer_processor []) (load_state_value "b"))
    = Ok (mkResult None None [mkResult None None []],
          mkState (lexer_processor []) (load_state_value "b"))) by reflexivity.
  split; [exact H1 | split; [exact H2 |]].
  exact (RuleFacts.and_compose item result_value head_rule item_eqb pred head_result not_value
           2 [ZeroOrOne (HeadRule (Literal "z"))] [ZeroOrOne (HeadRule (Literal "y"))]
           _ _ _ _ _ H1 H2).
Defined.

(** [apply_same_processor] on a plain stream "a" that [Literal('a')]
    consumes: the stream changes, the processor does not. *)
Lemma apply_same_processor_witness :
  Lexer.apply 1 (HeadRule (Literal "a"))
    (mkState (lexer_processor []) (mkStream StreamClass (load_items (mkPosition 0 0) "a")))
  = Ok (mkResult None (Some "a") [], mkState (lexer_processor []) (mkStream StreamClass []))
  /\ proc (mkState (lexer_processor []) (mkStream StreamClass [] : stream item))
     = proc (mkState (lexer_processor []) (mkStream StreamClass (load_items (mkPosition 0 0) "a"))).
Proof.
  assert (H : Lexer.apply 1 (HeadRule (Literal "a"))
    (mkState (lexer_processor []) (mkStream StreamClass (load_items (mkPosition 0 0) "a")))
    = Ok (mkResult None (Some "a") [], mkState (lexer_processor []) (mkStream StreamClass [])))
    by reflexivity.
  split; [exact H|].
  exact (RuleFacts.apply_same_processor item result_value head_rule item_eqb pred head_result
           not_value 1 _ _ _ _ H).
Defined.

(** [repetition_greedy_plain] on the plain stream "aab" with
    [Literal('a')]: two results, "b" left. *)
Lemma repetition_greedy_plain_witness :
  length (load_items (mkPosition 0 0) "aab") < 4
  /\ Lexer.apply 5 (ZeroOrMore (HeadRule (Literal "a")))
       (mkState (lexer_processor []) (mkStream StreamClass (load_items (mkPosition 0 0) "aab")))
     = Ok (mkResult None None [mkResult None (Some "a") []; mkResult None (Some "a") []],
           mkState (lexer_processor [])
             (mkStream StreamClass [mkItem "b" (mkPosition 0 2)]))
  /\ Lexer.apply 5 (OneOrMore (HeadRule (Literal "a")))
       (mkState (lexer_processor []) (mkStream StreamClass (load_items (mkPosition 0 0) "aab")))
     = Ok (mkResult None None [mkResult None (Some "a") []; mkResult None (Some "a") []],
           mkState (lexer_processor [])
             (mkStream StreamClass [mkItem "b" (mkPosition 0 2)])).
Proof.
  assert (H : length (load_items (mkPosition 0 0) "aab") < 4) by (simpl; lia).
  split; [exact H|].
  exact (RuleFacts.repetition_greedy_plain item result_value head_rule item_eqb pred head_result
           not_value 4 (Literal "a") (lexer_processor []) _ H).
Defined.

(** [until_empty_head_plain] on the plain stream "ab" with [Class('a',
    'z')]: every item accepted, the stream consumed. *)
Lemma until_empty_head_plain_witness :
  length (load_items (mkPosition 0 0) "ab") < 3
  /\ Lexer.apply 4 (UntilEmpty (HeadRule (Class "a" "z")))
       (mkState (lexer_processor []) (mkStream StreamClass (load_items (mkPosition 0 0) "ab")))
     = Ok (mkResult None None [mkResult None (Some "a") []; mkResult None (Some "b") []],
           mkState (lexer_processor []) (mkStream StreamClass [])).
Proof.
  assert (H : length (load_items (mkPosition 0 0) "ab") < 3) by (simpl; lia).
  split; [exact H|].
  exact (RuleFacts.until_empty_head_plain item result_value head_rule item_eqb pred head_result
           not_value 3 (Class "a" "z") (lexer_processor []) _ H).
Defined.

(** [lexer_rule_never_advances] at [ZeroOrOne(Literal('b'))] on "a". *)
Lemma lexer_rule_never_advances_witness :
  Lexer.apply 2 (ZeroOrOne (HeadRule (Literal "b")))
    (mkState (lexer_processor []) (load_state_value "a"))
  = Ok (mkResult None None [], mkState (lexer_processor []) (load_state_value "a"))
  /\ mkState (lexer_processor []) (load_state_value "a")
     = mkState (lexer_processor []) (load_state_value "a").
Proof.
  assert (H : Lexer.apply 2 (ZeroOrOne (HeadRule (Literal "b")))
    (mkState (lexer_processor []) (load_state_value "a"))
    = Ok (mkResult None None [], mkState (lexer_processor []) (load_state_value "a")))
    by reflexivity.
  split; [exact H|].
  exact (LexerExtra.lexer_rule_never_advances 2 _ (lexer_processor []) "a" _ _ H).
Defined.

(** [zero_or_more_never_raises] at [ZeroOrMore(Literal('a'))] on the plain
    stream "ab": one success, then the child fails at "b". *)
Lemma zero_or_more_never_raises_witness :
  RuleFacts.successes item result_value head_rule (Lexer.apply 3) (HeadRule (Literal "a"))
    (mkState (lexer_processor []) (mkStream StreamClass (load_items (mkPosition 0 0) "ab")))
    [mkResult None (Some "a") []]
    (mkState (lexer_processor []) (mkStream StreamClass [mkItem "b" (mkPosition 0 1)]))
  /\ Lexer.apply 3 (HeadRule (Literal "a"))
       (mkState (lexer_processor []) (mkStream StreamClass [mkItem "b" (mkPosition 0 1)]))
     = Raise (mkError None (Some (MsgFailedToMatchHead (Literal "a") (mkItem "b" (mkPosition 0 1)))) [])
  /\ Lexer.apply 4 (ZeroOrMore (HeadRule (Literal "a")))
       (mkState (lexer_processor []) (mkStream StreamClass (load_items (mkPosition 0 0) "ab")))
     = Ok (mkResult None None [mkResult None (Some "a") []],
           mkState (lexer_processor []) (mkStream StreamClass [mkItem "b" (mkPosition 0 1)])).
Proof.
  assert (Hs : RuleFacts.successes item result_value head_rule (Lexer.apply 3) (HeadRule (Literal "a"))
    (mkState (lexer_processor []) (mkStream StreamClass (load_items (mkPosition 0 0) "ab")))
    [mkResult None (Some "a") []]
    (mkState (lexer_processor []) (mkStream StreamClass [mkItem "b" (mkPosition 0 1)]))).
  { econstructor; [reflexivity | constructor]. }
  assert (He : Lexer.apply 3 (HeadRule (Literal "a"))
       (mkState (lexer_processor []) (mkStream StreamClass [mkItem "b" (mkPosition 0 1)]))
     = Raise (mkError None (Some (MsgFailedToMatchHead (Literal "a") (mkItem "b" (mkPosition 0 1)))) []))
    by reflexivity.
  split; [exact Hs | split; [exact He |]].
  exact (proj2 (RuleFacts.zero_or_more_never_raises item result_value head_rule item_eqb pred
                  head_result not_value 3 _ _) _ _ _ Hs He ltac:(simpl; lia)).
Defined.

(** [lexer_not_never_succeeds] on "a": with [ZeroOrOne(Literal('b'))],
    which succeeds, and with [Literal('b')], which fails. *)
Lemma lexer_not_never_succeeds_witness :
  (Lexer.apply 2 (ZeroOrOne (HeadRule (Literal "b")))
     (mkState (lexer_processor []) (load_state_value "a"))
   = Ok (mkResult None None [], mkState (lexer_processor []) (load_state_value "a"))
   /\ Lexer.apply 3 (Not (ZeroOrOne (HeadRule (Literal "b"))))
        (mkState (lexer_processor []) (load_state_value "a"))
      = HostRaise (AttributeError "_values"))
  /\ (Lexer.apply 2 (HeadRule (Literal "b"))
        (mkState (lexer_processor []) (load_state_value "a"))
      = Raise (mkError None (Some (MsgFailedToMatchHead (Literal "b") (mkItem "a" (mkPosition 0 0)))) [])
   /\ Lexer.apply 3 (Not (HeadRule (Literal "b")))
        (mkState (lexer_processor []) (load_state_value "a"))
      = HostRaise (AttributeError "_values")).
Proof.
  assert (H1 : Lexer.apply 2 (ZeroOrOne (HeadRule (Literal "b")))
     (mkState (lexer_processor []) (load_state_value "a"))
   = Ok (mkResult None None [], mkState (lexer_processor []) (load_state_value "a")))
    by reflexivity.
  assert (H2 : Lexer.apply 2 (HeadRule (Literal "b"))
        (mkState (lexer_processor []) (load_state_value "a"))
      = Raise (mkError None (Some (MsgFailedToMatchHead (Literal "b") (mkItem "a" (mkPosition 0 0)))) []))
    by reflexivity.
  split; split.
  - exact H1.
  - exact (proj1 (proj2 (proj2 (LexerExtra.lexer_not_never_succeeds 2 _ (lexer_processor []) "a")))
             "a"%char "" _ _ H1).
  - exact H2.
  - exact (proj2 (proj2 (proj2 (LexerExtra.lexer_not_never_succeeds 2 _ (lexer_processor []) "a")))
             "a"%char "" _ H2).
Defined.

End ExtraWitnesses.
